(** * The [learn] command of the CRFsuite frontend (frontend/learn.c)

    A shallow embedding of [main_learn] and of the option handling around it.
    The command owns three kinds of resources: strings duplicated on the C
    heap (the option set), library instances obtained from
    [crf_create_instance] (two dictionaries and a trainer) and the data set.
    Everything the command does to the outside (library calls, file
    operations, output) is recorded as a trace of events, so that statements
    about what happens on which exit path are statements about that trace. *)

From Stdlib Require Import ZArith Ascii String Lia.
From stdpp Require Import base list strings.

Local Open Scope Z_scope.

(** ** C strings *)

Definition NUL : ascii := zero.

(** The line feed written [\n] in the C string literals. *)
Definition LF : string := String (ascii_of_nat 10) EmptyString.

(** The characters of the C string that starts at the head of [bs]: all of
    them up to the first NUL. *)
Fixpoint c_str (bs : list ascii) : list ascii :=
  match bs with
  | [] => []
  | b :: bs' => if Ascii.eqb b NUL then [] else b :: c_str bs'
  end.

(** [strchr(s, c)], as the offset of the first [c] in the C string [bs]. *)
Fixpoint strchr (bs : list ascii) (c : ascii) : option nat :=
  match bs with
  | [] => None
  | b :: bs' =>
      if Ascii.eqb b c then Some 0%nat
      else if Ascii.eqb b NUL then None
      else S <$> strchr bs' c
  end.

(** ** The heap

    The heap is the log of the allocations made so far.  A block is one
    allocation (one successful call of [malloc]), not an address: it is kept
    after it has been freed, together with the number of times [free] was
    called on a pointer to it, and a pointer is NULL or the name of the
    allocation it came from.  Leaks and double frees are read off that count.

    Two things of the C allocator are left out, and bound what is stated over
    this heap.  First, [malloc] is taken to succeed.  Second, the address of
    a freed block may be handed out again, so that in the program a pointer
    kept after its block was freed may point into a later allocation; here
    it still names the freed one.  The two agree as long as no pointer is
    used after its allocation was freed.  The handlers keep one such pointer,
    [opt->type] after a feature flag; it is used again only by the next
    feature flag.  General statements about the option set the handlers
    build are therefore made for at most one feature flag, and none of them
    reads through [opt->type] once it was freed. *)

Definition ptr := option nat.

Record block := Block { bytes : list ascii; frees : nat }.

Abbreviation heap := (list block).

Definition malloc (bs : list ascii) (h : heap) : ptr * heap :=
  (Some (length h), h ++ [Block bs 0]).

Definition free (p : ptr) (h : heap) : heap :=
  match p with
  | None => h
  | Some a => alter (fun b => Block (bytes b) (S (frees b))) a h
  end.

(** The C string stored [off] bytes into the block at [p].  The program
    faults or reads garbage where [p] is NULL or not a live block; the empty
    string (and, for a freed block, its last contents) stands for that here,
    and no statement depends on it. *)
Definition load_str (h : heap) (p : ptr) (off : nat) : string :=
  match p with
  | None => EmptyString
  | Some a =>
      match h !! a with
      | Some b => string_of_list_ascii (c_str (drop off (bytes b)))
      | None => EmptyString
      end
  end.

(** [s[off] = c] in the block at [a]. *)
Definition store_byte (a off : nat) (c : ascii) (h : heap) : heap :=
  alter (fun b => Block (<[off := c]> (bytes b)) (frees b)) a h.

(** [mystrdup]: [malloc(strlen(src)+1)] followed by [strcpy].  The result is
    NULL when [malloc] fails, which is left out with the failure itself. *)
Definition mystrdup (src : string) (h : heap) : ptr * heap :=
  malloc (c_str (list_ascii_of_string src) ++ [NUL]) h.

(** ** Machine integers *)

(** The value of a C [int] (32 bits, two's complement) that the integer [z]
    wraps around to. *)
Definition int_wrap (z : Z) : Z := (z + 2 ^ 31) mod 2 ^ 32 - 2 ^ 31.

(** ** The option set *)

(** [num_params] and [params] are kept together as one list: the array of
    string pointers and its length. *)
Record learn_option_t := LearnOption {
  model : ptr;
  algorithm : ptr;
  type : ptr;
  holdout : Z;
  help : Z;
  params : list ptr
}.

Definition learn_option_init (h : heap) : learn_option_t * heap :=
  let '(m, h) := mystrdup "crfsuite.model" h in
  let '(a, h) := mystrdup "lbfgs" h in
  let '(t, h) := mystrdup "dyad" h in
  (LearnOption m a t (-1) 0 [], h).

(** [free(opt->model)], then [free(opt->params[i])] for each stored
    parameter.  (The array [opt->params] itself, which is freed last, is not a
    block of this heap.) *)
Definition learn_option_finish (opt : learn_option_t) (h : heap) : heap :=
  let h := free (model opt) h in
  foldl (fun h p => free p h) h (params opt).

(** The type of the callback [option_parse] hands every flag to: the flag
    character (NUL for a long option), the long name, and the argument.  The
    result is the number of arguments used, or a negative number. *)
Definition option_handler_t : Type :=
  learn_option_t -> ascii -> string -> string -> heap -> Z * (learn_option_t * heap).

(** Modelled from the spec: the macros of option.h (not among the sources).
    [SHORTOPT(x)] holds for the flag character [x], [LONGOPT(x)] for the long
    name [x].  [BEGIN_OPTION_MAP] and [END_OPTION_MAP] make the handler out of
    the branches between them: [ON_OPTION_WITH_ARG(test)] opens the branch
    taken when [test] holds, which uses one argument, [ON_OPTION(test)] one
    which uses none, and a flag no branch takes is refused. *)
Definition SHORTOPT (c : ascii) (x : ascii) : bool := Ascii.eqb c x.

Definition LONGOPT (c : ascii) (longname : string) (x : string) : bool :=
  Ascii.eqb c NUL && String.eqb longname x.

(** [parse_learn_options], the option map: the result is 1 for a branch
    that uses the argument, 0 for one that does not, and -1 for a flag that
    matches no branch.  [atoi] is the C library's; [atoi(arg)-1] is computed
    in [int], and wraps around where [atoi(arg)] is the least [int] (C leaves
    that case undefined). *)
Definition parse_learn_options (atoi : string -> Z) : option_handler_t :=
  fun opt c longname arg h =>
  if SHORTOPT c "m" || LONGOPT c longname "model" then
    let h := free (model opt) h in
    let '(p, h) := mystrdup arg h in
    (1, (LearnOption p (algorithm opt) (type opt) (holdout opt) (help opt) (params opt), h))
  else if SHORTOPT c "t" || LONGOPT c longname "test" then
    (1, (LearnOption (model opt) (algorithm opt) (type opt) (int_wrap (atoi arg - 1)) (help opt)
           (params opt), h))
  else if SHORTOPT c "h" || LONGOPT c longname "help" then
    (0, (LearnOption (model opt) (algorithm opt) (type opt) (holdout opt) 1 (params opt), h))
  else if SHORTOPT c "a" || LONGOPT c longname "algorithm" then
    let h := free (algorithm opt) h in
    let '(p, h) := mystrdup arg h in
    (1, (LearnOption (model opt) p (type opt) (holdout opt) (help opt) (params opt), h))
  else if SHORTOPT c "f" || LONGOPT c longname "feature" then
    let h := free (type opt) h in
    let '(p, h) := mystrdup arg h in
    (1, (LearnOption p (algorithm opt) (type opt) (holdout opt) (help opt) (params opt), h))
  else if SHORTOPT c "p" || LONGOPT c longname "param" then
    let '(p, h) := mystrdup arg h in
    (1, (LearnOption (model opt) (algorithm opt) (type opt) (holdout opt) (help opt)
           (params opt ++ [p]), h))
  else
    (-1, (opt, h)).

(** ** Events *)

Inductive FILE := Stdin | Stdout | Stderr | Fopened (path : string).

(** An argument of a [printf]-style call.  [PSeconds t] stands for the
    floating-point quotient [t / (double)CLOCKS_PER_SEC]. *)
Inductive parg := PStr (s : string) | PInt (n : Z) | PSeconds (ticks : Z).

(** Modelled from the spec: the answer of the data reader, [(count, error?)]
    (readdata.h is not among the sources). *)
Inductive read_result := ReadDone (count : Z) | ReadFailed.

(** A call is recorded with its arguments and, where it has one the command
    could look at, its result. *)
Inductive event :=
| EvFprintf (fp : FILE) (format : string) (args : list parg)
| EvFflush (fp : FILE)
| EvDataInit
| EvDataFinish
| EvCreate (iid : string) (obj : ptr)
| EvParams (trainer : ptr)
| EvSet (name : string) (value : option string) (result : Z)
| EvParamsRelease
| EvFopen (path : string) (ok : bool)
| EvReadData (fp : FILE) (attrs labels : ptr) (group : Z) (result : read_result)
| EvFclose (fp : FILE)
| EvSetMessageCallback (trainer : ptr)
| EvTrain (trainer : ptr) (num_instances : Z) (attrs labels : ptr) (path : string) (fold : Z)
| EvTrained (result : Z)
| EvRelease (obj : nat).

(** ** What lies outside learn.c

    The library (crfsuite.h), the data reader (readdata.h), the option
    scanner (option.h) and the C library are not part of this file; the
    command is verified for every behaviour they can show.  [W] is the state
    of that outside world. *)

Record externals (W : Type) := Externals {
  (** option.c: scans the arguments, hands each flag to the handler and
      returns the index of the first argument that is not a flag, or a
      negative number. *)
  option_parse : list string -> option_handler_t -> learn_option_t -> heap ->
                 Z * (learn_option_t * heap);
  atoi : string -> Z;
  (** Non-zero when the instance was created and stored through the pointer,
      zero when it was not (the pointer is then left as it was). *)
  crf_create_instance : string -> W -> Z * W;
  params_set : string -> option string -> W -> Z * W;
  fopen : string -> W -> bool * W;
  read_data : FILE -> ptr -> ptr -> Z -> W -> read_result * W;
  data_num_instances : W -> Z;
  crf_data_totalitems : W -> Z;
  dictionary_num : ptr -> W -> Z;
  (** The training run: the messages it sends to the callback, then its
      result. *)
  trainer_train : ptr -> Z -> ptr -> ptr -> string -> Z -> W ->
                  (list (string * list parg) * Z) * W;
  time : W -> Z * W;
  clock : W -> Z * W;
  (** [strftime] of [gmtime] of a time stamp. *)
  strftime : string -> Z -> string
}.

Arguments option_parse {W}.
Arguments atoi {W}.
Arguments crf_create_instance {W}.
Arguments params_set {W}.
Arguments fopen {W}.
Arguments read_data {W}.
Arguments data_num_instances {W}.
Arguments crf_data_totalitems {W}.
Arguments dictionary_num {W}.
Arguments trainer_train {W}.
Arguments time {W}.
Arguments clock {W}.
Arguments strftime {W}.

(** The state of a run: the heap, the number of library instances created so
    far (the next instance is named by it) and the outside world. *)
Record machine (W : Type) := Machine { mem : heap; next_obj : nat; world : W }.

Arguments Machine {W}.
Arguments mem {W}.
Arguments next_obj {W}.
Arguments world {W}.

(** ** Computations

    A computation returns a value, the next state and the events it gave
    rise to, in order. *)
Definition M {W : Type} (A : Type) : Type := machine W -> A * machine W * list event.

Definition unit_M {W A} (a : A) : @M W A := fun s => (a, s, []).

Definition bind_M {W A B} (m : @M W A) (k : A -> @M W B) : @M W B := fun s =>
  let '(a, s1, t1) := m s in
  let '(b, s2, t2) := k a s1 in
  (b, s2, t1 ++ t2).

Notation "'let*' p ':=' m 'in' k" := (bind_M m (fun p => k))
  (at level 10, p pattern, m at level 100, k at level 200).
Notation "m ;;; k" := (bind_M m (fun _ => k))
  (at level 100, right associativity).

(** ** The command *)

Section Learn.

Context {W : Type} (E : externals W).

Local Abbreviation M := (@M W).

Definition emit (e : event) : M unit := fun s => (tt, s, [e]).

Definition extern {A} (f : W -> A * W) : M A := fun s =>
  let '(a, w) := f (world s) in (a, Machine (mem s) (next_obj s) w, []).

Definition query {A} (f : W -> A) : M A := fun s => (f (world s), s, []).

Definition on_heap {A} (f : heap -> A * heap) : M A := fun s =>
  let '(a, h) := f (mem s) in (a, Machine h (next_obj s) (world s), []).

Definition new_obj : M nat := fun s =>
  (next_obj s, Machine (mem s) (S (next_obj s)) (world s), []).

Definition fprintf (fp : FILE) (format : string) (args : list parg) : M unit :=
  emit (EvFprintf fp format args).

Fixpoint foreach {A} (l : list A) (body : A -> M unit) : M unit :=
  match l with
  | [] => unit_M tt
  | a :: l' => body a ;;; foreach l' body
  end.

(** [ret = crf_create_instance(iid, &obj)] for an [obj] that is NULL: the
    new values of [ret] and [obj]. *)
Definition create_instance (iid : string) : M (Z * ptr) :=
  let* r := extern (crf_create_instance E iid) in
  if r =? 0 then emit (EvCreate iid None) ;;; unit_M (r, None)
  else let* o := new_obj in emit (EvCreate iid (Some o)) ;;; unit_M (r, Some o).

(** [SAFE_RELEASE(obj)]: the new value of [obj]. *)
Definition SAFE_RELEASE (obj : ptr) : M ptr :=
  match obj with
  | Some o => emit (EvRelease o) ;;; unit_M None
  | None => unit_M None
  end.

Definition show_usage (fp : FILE) (argv0 command : string) : M unit :=
  fprintf fp ("USAGE: %s %s [OPTIONS] [DATA]" +:+ LF) [PStr argv0; PStr command] ;;;
  fprintf fp ("Obtain a model from a training set of instances given by a file (DATA)." +:+ LF) [] ;;;
  fprintf fp ("If argument DATA is omitted or '-', this utility reads a data from STDIN." +:+ LF) [] ;;;
  fprintf fp LF [] ;;;
  fprintf fp ("OPTIONS:" +:+ LF) [] ;;;
  fprintf fp ("    -m, --model=MODEL   Store the obtained model in a file (MODEL)" +:+ LF) [] ;;;
  fprintf fp ("    -t, --test=TEST     Report the performance of the model on a data (TEST)" +:+ LF) [] ;;;
  fprintf fp ("    -p, --param=NAME=VALUE  Set the parameter NAME to VALUE" +:+ LF) [] ;;;
  fprintf fp ("    -h, --help          Show the usage of this command and exit" +:+ LF) [].

Definition message_callback (format : string) (args : list parg) : M Z :=
  emit (EvFprintf Stdout format args) ;;;
  emit (EvFflush Stdout) ;;;
  unit_M 0.

(** [value = strchr(name, '='); if (value != NULL) *value++ = 0;] on the
    heap: the offset of [value] in the block of [name], if it is not NULL.
    Where [name] is NULL or not a block the program faults in [strchr]; here
    nothing is written, and what is stated of the parameters is stated of
    option sets whose parameters are blocks. *)
Definition split_param (name : ptr) (h : heap) : option nat * heap :=
  match name with
  | None => (None, h)
  | Some a =>
      match h !! a with
      | None => (None, h)
      | Some b =>
          match strchr (bytes b) "=" with
          | None => (None, h)
          | Some k => (Some (S k), store_byte a k NUL h)
          end
      end
  end.

(** The body of the loop that sets the parameters. *)
Definition set_parameter (trainer : ptr) (name : ptr) : M unit :=
  emit (EvParams trainer) ;;;
  let* value := on_heap (split_param name) in
  let* n := on_heap (fun h => (load_str h name 0, h)) in
  let* v := on_heap (fun h => (load_str h name <$> value, h)) in
  let* result := extern (params_set E n v) in
  emit (EvSet n v result) ;;;
  emit EvParamsRelease.

Definition set_parameters (trainer : ptr) (opt : learn_option_t) : M unit :=
  foreach (params opt) (set_parameter trainer).

Definition log_time (format : string) : M unit :=
  let* ts := extern (time E) in
  fprintf Stdout format [PStr (strftime E "%Y-%m-%dT%H:%M:%SZ" ts)] ;;;
  fprintf Stdout LF [].

(** [(strcmp(argv[i], "-") == 0) ? fpi : fopen(argv[i], "r")] *)
Definition open_data_set (f : string) : M (option FILE) :=
  if String.eqb f "-" then unit_M (Some Stdin)
  else
    let* ok := extern (fopen E f) in
    emit (EvFopen f ok) ;;;
    unit_M (if ok then Some (Fopened f) else None).

(** The loop over the data sets, [k] being [i - arg_used]; [false] when it
    was left through [goto force_exit]. *)
Fixpoint read_data_sets (files : list string) (k : Z) (attrs labels : ptr) : M bool :=
  match files with
  | [] => unit_M true
  | f :: files' =>
      let* fp := open_data_set f in
      match fp with
      | None =>
          fprintf Stderr ("ERROR: Failed to open the data set: %s" +:+ LF) [PStr f] ;;;
          unit_M false
      | Some fp =>
          fprintf Stdout ("%d - %s" +:+ LF) [PInt (k + 1); PStr f] ;;;
          let* result := extern (read_data E fp attrs labels k) in
          emit (EvReadData fp attrs labels k result) ;;;
          emit (EvFclose fp) ;;;
          read_data_sets files' (k + 1) attrs labels
      end
  end.

Record locals := Locals { ret : Z; trainer : ptr; labels : ptr; attrs : ptr }.

(** From the statistics of the training data to the end of the body. *)
Definition report_and_train (opt : learn_option_t) (clk_begin clk_current : Z)
    (trainer labels attrs : ptr) : M locals :=
  let* n := query (data_num_instances E) in
  fprintf Stdout ("Number of instances: %d" +:+ LF) [PInt n] ;;;
  let* items := query (crf_data_totalitems E) in
  fprintf Stdout ("Total number of items: %d" +:+ LF) [PInt items] ;;;
  let* na := query (dictionary_num E attrs) in
  fprintf Stdout ("Number of attributes: %d" +:+ LF) [PInt na] ;;;
  let* nl := query (dictionary_num E labels) in
  fprintf Stdout ("Number of labels: %d" +:+ LF) [PInt nl] ;;;
  fprintf Stdout ("Seconds required: %.3f" +:+ LF) [PSeconds (clk_current - clk_begin)] ;;;
  fprintf Stdout LF [] ;;;
  emit (EvFflush Stdout) ;;;
  emit (EvSetMessageCallback trainer) ;;;
  let* path := on_heap (fun h => (load_str h (model opt) 0, h)) in
  let* n := query (data_num_instances E) in
  emit (EvTrain trainer n attrs labels path (holdout opt)) ;;;
  let* (messages, r) := extern (trainer_train E trainer n attrs labels path (holdout opt)) in
  foreach messages (fun m => let* _ := message_callback (fst m) (snd m) in unit_M tt) ;;;
  emit (EvTrained r) ;;;
  if negb (r =? 0) then unit_M (Locals r trainer labels attrs)
  else
    log_time ("End time of the training: %s" +:+ LF) ;;;
    unit_M (Locals r trainer labels attrs).

(** The body of [main_learn] once the three instances exist, from the loop
    that sets the parameters on.  [files] are the arguments from index
    [arg_used] on. *)
Definition train_on_data_sets (opt : learn_option_t) (files : list string)
    (trainer labels attrs : ptr) : M locals :=
  set_parameters trainer opt ;;;
  log_time ("Start time of the training: %s" +:+ LF) ;;;
  fprintf Stdout ("Reading the data set(s)" +:+ LF) [] ;;;
  let* clk_begin := extern (clock E) in
  let* opened := read_data_sets files 0 attrs labels in
  if negb opened then unit_M (Locals 1 trainer labels attrs)
  else
  let* clk_current := extern (clock E) in
  report_and_train opt clk_begin clk_current trainer labels attrs.

(** The body of [main_learn] between the call of [option_parse] and the
    label [force_exit]: the locals as they are when the label is reached.
    [args] is the argument vector after [++argv]. *)
Definition learn_steps (args : list string) (argv0 command : string)
    (arg_used : Z) (opt : learn_option_t) : M locals :=
  if arg_used <? 0 then unit_M (Locals 1 None None None)
  else if negb (help opt =? 0) then
    show_usage Stdout argv0 command ;;;
    unit_M (Locals 0 None None None)
  else
    let* (r, attrs) := create_instance "dictionary" in
    if r =? 0 then
      fprintf Stderr ("ERROR: Failed to create a dictionary instance." +:+ LF) [] ;;;
      unit_M (Locals 1 None None attrs)
    else
    let* (r, labels) := create_instance "dictionary" in
    if r =? 0 then
      fprintf Stderr ("ERROR: Failed to create a dictionary instance." +:+ LF) [] ;;;
      unit_M (Locals 1 None labels attrs)
    else
    let* (r, trainer) := create_instance "train/crf1d/lbfgs" in
    if r =? 0 then
      fprintf Stderr ("ERROR: Failed to create a trainer instance." +:+ LF) [] ;;;
      unit_M (Locals 1 trainer labels attrs)
    else
    train_on_data_sets opt (drop (Z.to_nat arg_used) args) trainer labels attrs.

(** The code at the label [force_exit]. *)
Definition force_exit (opt : learn_option_t) (l : locals) : M Z :=
  let* _ := SAFE_RELEASE (trainer l) in
  let* _ := SAFE_RELEASE (labels l) in
  let* _ := SAFE_RELEASE (attrs l) in
  emit EvDataFinish ;;;
  on_heap (fun h => (tt, learn_option_finish opt h)) ;;;
  unit_M (ret l).

Definition main_learn (argv : list string) (argv0 : string) : M Z :=
  let command := List.hd EmptyString argv in
  let* opt := on_heap learn_option_init in
  emit EvDataInit ;;;
  let* (arg_used, opt) := on_heap (fun h =>
      let '(n, (opt, h)) := option_parse E (tl argv) (parse_learn_options (atoi E)) opt h in
      ((n, opt), h)) in
  let* l := learn_steps (tl argv) argv0 command arg_used opt in
  force_exit opt l.

End Learn.

Arguments Locals ret trainer labels attrs : clear implicits.

(** ** A concrete outside world

    Used to run the command on concrete command lines. *)

(** The C library's [atoi], as [(int) strtol(s, NULL, 10)]: white space
    (the six characters of [isspace]), an optional sign, then decimal digits
    up to the first character that is not one.  [strtol] stops at the bounds
    of [long] (64 bits), and the conversion to [int] wraps around. *)
Definition digit_of (c : ascii) : option Z :=
  let n := Z.of_nat (nat_of_ascii c) in
  if (48 <=? n) && (n <=? 57) then Some (n - 48) else None.

Definition isspace (c : ascii) : bool :=
  let n := Z.of_nat (nat_of_ascii c) in
  (n =? 32) || ((9 <=? n) && (n <=? 13)).

Fixpoint atoi_digits (cs : list ascii) (acc : Z) : Z :=
  match cs with
  | [] => acc
  | c :: cs' =>
      match digit_of c with
      | Some d => atoi_digits cs' (10 * acc + d)
      | None => acc
      end
  end.

Fixpoint atoi_space (cs : list ascii) : Z :=
  match cs with
  | [] => 0
  | c :: cs' =>
      if isspace c then atoi_space cs'
      else if Ascii.eqb c "-" then - atoi_digits cs' 0
      else if Ascii.eqb c "+" then atoi_digits cs' 0
      else atoi_digits cs 0
  end.

Definition strtol (s : string) : Z :=
  Z.max (- 2 ^ 63) (Z.min (2 ^ 63 - 1) (atoi_space (list_ascii_of_string s))).

Definition atoi_model (s : string) : Z := int_wrap (strtol s).

(** Modelled from the spec: a long option [--NAME=ARG] is split at its
    first [=] (option.c is not among the sources). *)
Fixpoint long_option (cs : list ascii) : list ascii * option (list ascii) :=
  match cs with
  | [] => ([], None)
  | c :: cs' =>
      if Ascii.eqb c "=" then ([], Some cs')
      else let '(name, arg) := long_option cs' in (c :: name, arg)
  end.

(** What the scanner does after a flag: the handler refused it, or accepted
    it and did or did not use the next argument. *)
Inductive flag_result := Refused | Accepted (next_used : bool).

(** Modelled from the spec: the flags packed in one argument [-abc]
    (option.c is not among the sources).  A flag that takes an argument takes
    the rest of the token or, when nothing is left, the next argument. *)
Fixpoint short_options (handler : option_handler_t) (cs : list ascii) (next_token : string)
    (opt : learn_option_t) (h : heap) : flag_result * (learn_option_t * heap) :=
  match cs with
  | [] => (Accepted false, (opt, h))
  | c :: rest =>
      let arg := match rest with [] => next_token | _ => string_of_list_ascii rest end in
      let '(used, (opt, h)) := handler opt c (string_of_list_ascii rest) arg h in
      if used <? 0 then (Refused, (opt, h))
      else if 0 <? used then
        (Accepted match rest with [] => true | _ => false end, (opt, h))
      else short_options handler rest next_token opt h
  end.

(** Modelled from the spec: [option_parse] (option.c is not among the
    sources).  Flags are [-m PATH], [-mPATH], [--model=PATH] or
    [--model PATH]; the first argument that is not a flag, [-] included,
    ends the scan, and the result is its index.  A flag the handler refuses
    makes the result -1. *)
Fixpoint option_parse_from (handler : option_handler_t) (i : Z) (argv : list string)
    (opt : learn_option_t) (h : heap) : Z * (learn_option_t * heap) :=
  match argv with
  | [] => (i, (opt, h))
  | token :: rest =>
      let next_token := List.hd EmptyString rest in
      let skip (r : flag_result * (learn_option_t * heap)) :=
        match r with
        | (Refused, st) => (-1, st)
        | (Accepted false, (opt, h)) => option_parse_from handler (i + 1) rest opt h
        | (Accepted true, (opt, h)) =>
            match rest with
            | [] => (i + 2, (opt, h))
            | _ :: rest' => option_parse_from handler (i + 2) rest' opt h
            end
        end in
      match list_ascii_of_string token with
      | "-"%char :: [] => (i, (opt, h))
      | "-"%char :: "-"%char :: long =>
          let '(name, arg) := long_option long in
          let '(used, st) :=
            handler opt NUL (string_of_list_ascii name)
              (match arg with Some a => string_of_list_ascii a | None => next_token end) h in
          if used <? 0 then (-1, st)
          else skip (Accepted (match arg with Some _ => false | None => 0 <? used end), st)
      | "-"%char :: cs => skip (short_options handler cs next_token opt h)
      | _ => (i, (opt, h))
      end
  end.

Definition option_parse_model : list string -> option_handler_t -> learn_option_t -> heap ->
    Z * (learn_option_t * heap) :=
  fun argv handler opt h => option_parse_from handler 0 argv opt h.

(** A scenario fixes how the outside answers: which calls of
    [crf_create_instance] succeed (by their number), which parameter names
    the store refuses, which files cannot be opened or read, and what
    training returns. *)
Record scenario := Scenario {
  creates : nat -> bool;
  refuses : string -> bool;
  missing : string -> bool;
  unreadable : string -> bool;
  training : Z
}.

(** The simulated world counts the calls of [crf_create_instance]. *)
Definition sim (sc : scenario) : externals nat :=
  {| option_parse := option_parse_model;
     atoi := atoi_model;
     crf_create_instance := fun _ n => (if creates sc n then 1 else 0, S n);
     params_set := fun name _ n => (if refuses sc name then -1 else 0, n);
     fopen := fun path n => (negb (missing sc path), n);
     read_data := fun fp _ _ _ n =>
       (match fp with
        | Fopened path => if unreadable sc path then ReadFailed else ReadDone 1
        | _ => ReadDone 1
        end, n);
     data_num_instances := fun _ => 0;
     crf_data_totalitems := fun _ => 0;
     dictionary_num := fun _ _ => 0;
     trainer_train := fun _ _ _ _ _ _ n => (([], training sc), n);
     time := fun n => (0, n);
     clock := fun n => (0, n);
     strftime := fun _ _ => EmptyString |}.

(** The scenario in which everything works. *)
Definition fine : scenario :=
  Scenario (fun _ => true) (fun _ => false) (fun _ => false) (fun _ => false) 0.

Definition boot : machine nat := Machine [] 0 0%nat.

(** ** What is read off a trace *)

(** The instances released, in order. *)
Fixpoint released (t : list event) : list nat :=
  match t with
  | [] => []
  | EvRelease o :: t' => o :: released t'
  | _ :: t' => released t'
  end.

(** The instances created, in order of creation, with their kind. *)
Fixpoint created (t : list event) : list (string * nat) :=
  match t with
  | [] => []
  | EvCreate iid (Some o) :: t' => (iid, o) :: created t'
  | _ :: t' => created t'
  end.

(** The kinds [crf_create_instance] was called with. *)
Fixpoint creations (t : list event) : list string :=
  match t with
  | [] => []
  | EvCreate iid _ :: t' => iid :: creations t'
  | _ :: t' => creations t'
  end.

(** The calls of the parameter store's [set]. *)
Fixpoint parameters_set (t : list event) : list (string * option string) :=
  match t with
  | [] => []
  | EvSet n v _ :: t' => (n, v) :: parameters_set t'
  | _ :: t' => parameters_set t'
  end.

(** The streams handed to the data reader, with their group. *)
Fixpoint ingested (t : list event) : list (FILE * Z) :=
  match t with
  | [] => []
  | EvReadData fp _ _ g _ :: t' => (fp, g) :: ingested t'
  | _ :: t' => ingested t'
  end.

(** The calls of the training operation, with the output path and the
    holdout group they were given. *)
Fixpoint trainings (t : list event) : list (string * Z) :=
  match t with
  | [] => []
  | EvTrain _ _ _ _ path fold :: t' => (path, fold) :: trainings t'
  | _ :: t' => trainings t'
  end.

(** The instances the training operation was called on. *)
Fixpoint trained_on (t : list event) : list ptr :=
  match t with
  | [] => []
  | EvTrain trainer _ _ _ _ _ :: t' => trainer :: trained_on t'
  | _ :: t' => trained_on t'
  end.

(** The results of the training operation. *)
Fixpoint trained (t : list event) : list Z :=
  match t with
  | [] => []
  | EvTrained r :: t' => r :: trained t'
  | _ :: t' => trained t'
  end.

(** The parameter names the store answered with an error. *)
Fixpoint rejected (t : list event) : list string :=
  match t with
  | [] => []
  | EvSet n _ r :: t' => if r =? 0 then rejected t' else n :: rejected t'
  | _ :: t' => rejected t'
  end.

(** The streams the data reader failed on. *)
Fixpoint unread (t : list event) : list FILE :=
  match t with
  | [] => []
  | EvReadData fp _ _ _ ReadFailed :: t' => fp :: unread t'
  | _ :: t' => unread t'
  end.

(** What was written to the error stream. *)
Fixpoint errors (t : list event) : list (string * list parg) :=
  match t with
  | [] => []
  | EvFprintf Stderr f a :: t' => (f, a) :: errors t'
  | _ :: t' => errors t'
  end.

(** The files that could not be opened. *)
Fixpoint failed_opens (t : list event) : list string :=
  match t with
  | [] => []
  | EvFopen f false :: t' => f :: failed_opens t'
  | _ :: t' => failed_opens t'
  end.

(** The state in which [main_learn] calls [learn_steps]: the index returned
    by [option_parse], the option set and the machine. *)
Definition parsed {W} (E : externals W) (argv : list string) (s : machine W)
    : Z * learn_option_t * machine W :=
  let '(opt, h) := learn_option_init (mem s) in
  let '(n, (opt, h)) := option_parse E (tl argv) (parse_learn_options (atoi E)) opt h in
  (n, opt, Machine h (next_obj s) (world s)).

(** The arguments left for the data sets. *)
Definition positional {W} (E : externals W) (argv : list string) (s : machine W)
    : list string :=
  drop (Z.to_nat (parsed E argv s).1.1) (tl argv).

(** The stream a data set argument stands for. *)
Definition stream_of (f : string) : FILE :=
  if String.eqb f "-" then Stdin else Fopened f.

(** The data sets [files] with the groups [k], [k+1], ... *)
Fixpoint tagged (k : Z) (files : list string) : list (FILE * Z) :=
  match files with
  | [] => []
  | f :: files' => (stream_of f, k) :: tagged (k + 1) files'
  end.

Definition open_error (f : string) : string * list parg :=
  ("ERROR: Failed to open the data set: %s" +:+ LF, [PStr f]).

Definition is_param_event (e : event) : bool :=
  match e with EvParams _ | EvSet _ _ _ | EvParamsRelease => true | _ => false end.

Definition is_output (e : event) : bool :=
  match e with EvFprintf Stdout _ _ | EvFflush _ => true | _ => false end.

(** ** Exit paths

    The ways [main_learn] reaches the label [force_exit]: the scan of the
    options failed, the usage was shown, the creation of an instance failed
    after [k] of them were created, a data set could not be opened, or the
    training returned (with 0 or with an error). *)
Inductive exit_path :=
| ParseFailure
| HelpShown
| CreationFailure (k : nat)
| OpenFailure (f : string)
| TrainingEnd (r : Z).

(** The kinds of the instances, in the order the command asks for them. *)
Definition kinds : list string := ["dictionary"; "dictionary"; "train/crf1d/lbfgs"].

(** The attribute dictionary, the label dictionary and the trainer, when
    the first instance created is named [o]. *)
Definition instances (o : nat) : list (string * nat) :=
  [("dictionary", o); ("dictionary", S o); ("train/crf1d/lbfgs", S (S o))].

(** The instances that exist when the label is reached. *)
Definition created_before (p : exit_path) (o : nat) : list (string * nat) :=
  match p with
  | ParseFailure | HelpShown => []
  | CreationFailure k => take k (instances o)
  | OpenFailure _ | TrainingEnd _ => instances o
  end.

Definition creation_error (k : nat) : string * list parg :=
  (if (k <? 2)%nat then "ERROR: Failed to create a dictionary instance." +:+ LF
   else "ERROR: Failed to create a trainer instance." +:+ LF, []).

(** What is known of the locals [l] and of the events [t] of the body when
    the label is reached on path [p]; [n] is the result of [option_parse],
    [files] the arguments from [n] on, [o] the name of the next instance
    before the body. *)
Definition follows (p : exit_path) (n : Z) (opt : learn_option_t) (files : list string)
    (o : nat) (l : locals) (t : list event) : Prop :=
  released t = [] /\
  created t = created_before p o /\
  [attrs l; labels l; trainer l] = take 3 ((Some <$> (created t).*2) ++ [None; None; None]) /\
  match p with
  | ParseFailure => n < 0 /\ t = [] /\ ret l = 1
  | HelpShown =>
      0 <= n /\ help opt <> 0 /\ ret l = 0 /\
      creations t = [] /\ parameters_set t = [] /\ ingested t = [] /\
      failed_opens t = [] /\ errors t = [] /\ trainings t = [] /\ trained t = []
  | CreationFailure k =>
      0 <= n /\ help opt = 0 /\ (k < 3)%nat /\ ret l = 1 /\
      creations t = take (S k) kinds /\ parameters_set t = [] /\ ingested t = [] /\
      failed_opens t = [] /\ errors t = [creation_error k] /\ trainings t = [] /\
      trained t = []
  | OpenFailure f =>
      0 <= n /\ help opt = 0 /\ ret l = 1 /\
      creations t = kinds /\
      (exists done rest, files = done ++ f :: rest /\ ingested t = tagged 0 done) /\
      failed_opens t = [f] /\ errors t = [open_error f] /\ trainings t = [] /\
      trained t = []
  | TrainingEnd r =>
      0 <= n /\ help opt = 0 /\ ret l = r /\
      creations t = kinds /\ ingested t = tagged 0 files /\
      failed_opens t = [] /\ errors t = [] /\
      trained t = [r] /\
      exists path, trainings t = [(path, holdout opt)]
  end.

(** The option set with another algorithm name. *)
Definition with_algorithm (a : ptr) (opt : learn_option_t) : learn_option_t :=
  LearnOption (model opt) a (type opt) (holdout opt) (help opt) (params opt).

(** The positions of the data sets: each with its stream and, as group, its
    0-based position in the list. *)
Definition by_position (files : list string) : list (FILE * Z) :=
  imap (fun i f => (stream_of f, Z.of_nat i)) files.

(** The statement that a data set that cannot be opened or cannot be read
    stops the run before training, with exit code 1 and a message naming
    it. *)
Definition io_failure_aborts {W} (E : externals W) (argv : list string) (argv0 : string)
    (s : machine W) : Prop :=
  let '(r, _, t) := main_learn E argv argv0 s in
  forall f, f ∈ failed_opens t \/ Fopened f ∈ unread t ->
    r = 1 /\ trainings t = [] /\ exists format, (format, [PStr f]) ∈ errors t.

(** The statement that a parameter name the store refuses stops the run
    before training, with a non-zero exit code and a message naming it. *)
Definition refused_parameter_aborts {W} (E : externals W) (argv : list string)
    (argv0 : string) (s : machine W) : Prop :=
  let '(r, _, t) := main_learn E argv argv0 s in
  forall name, name ∈ rejected t ->
    r <> 0 /\ trainings t = [] /\
    exists format args, (format, args) ∈ errors t /\ PStr name ∈ args.

(** The statement that a run without data set arguments reads the standard
    input. *)
Definition omitted_data_reads_stdin {W} (E : externals W) (argv : list string)
    (argv0 : string) (s : machine W) : Prop :=
  let '(_, _, t) := main_learn E argv argv0 s in
  positional E argv s = [] -> trainings t <> [] -> Stdin ∈ (ingested t).*1.

(** Scenarios: the store refuses the name [bogus]; the file [b.txt] cannot be
    read. *)
Definition refusing : scenario :=
  Scenario (fun _ => true) (String.eqb "bogus") (fun _ => false) (fun _ => false) 0.

Definition unreadable_b : scenario :=
  Scenario (fun _ => true) (fun _ => false) (fun _ => false) (String.eqb "b.txt") 0.

Definition missing_b : scenario :=
  Scenario (fun _ => true) (fun _ => false) (String.eqb "b.txt") (fun _ => false) 0.

(** The C string a string stands for: its characters up to the first NUL. *)
Definition c_string (s : string) : string :=
  string_of_list_ascii (c_str (list_ascii_of_string s)).

(** The block [mystrdup] fills for [src]. *)
Definition duplicate (src : string) : block :=
  Block (c_str (list_ascii_of_string src) ++ [NUL]) 0.

(** A heap with the text of every block and the number of times it was
    freed. *)
Definition audit (h : heap) : list (string * nat) :=
  (fun b => (string_of_list_ascii (c_str (bytes b)), frees b)) <$> h.

(** The name and the value of a raw parameter, in the words of its
    description: the name is what stands before the first [=], the value
    what stands after it, and there is no value when there is no [=]. *)
Fixpoint name_value (s : string) : string * option string :=
  match s with
  | EmptyString => (EmptyString, None)
  | String c s' =>
      if Ascii.eqb c "=" then (EmptyString, Some s')
      else let '(n, v) := name_value s' in (String c n, v)
  end.

Fixpoint has_equals (s : string) : bool :=
  match s with
  | EmptyString => false
  | String c s' => Ascii.eqb c "=" || has_equals s'
  end.

(** Strings as the arguments of a C program are: without a NUL inside. *)
Fixpoint nul_free (s : string) : bool :=
  match s with
  | EmptyString => true
  | String c s' => negb (Ascii.eqb c NUL) && nul_free s'
  end.

(** The option set and the heap after the flag [-p] was handled for each
    of [raw] in turn. *)
Definition store_params (atoi : string -> Z) (raw : list string)
    (opt : learn_option_t) (h : heap) : learn_option_t * heap :=
  foldl (fun st arg => (parse_learn_options atoi st.1 "p"%char EmptyString arg st.2).2)
    (opt, h) raw.

(** A trace that shows nothing but, possibly, calls of the parameter store and
    output. *)
Record silent (t : list event) : Prop := Silent {
  silent_released : released t = [];
  silent_created : created t = [];
  silent_creations : creations t = [];
  silent_ingested : ingested t = [];
  silent_trainings : trainings t = [];
  silent_trained : trained t = [];
  silent_errors : errors t = [];
  silent_failed_opens : failed_opens t = []
}.

(** ** Further definitions *)

(** Scenario: [crf_create_instance] works twice, then fails. *)
Definition no_trainer : scenario :=
  Scenario (fun n => (n <? 2)%nat) (fun _ => false) (fun _ => false) (fun _ => false) 0.

(** One use of the parameter store: it is fetched from the trainer, [set]
    is called on it, and it is released. *)
Definition store_use (trainer : ptr) (c : string * option string * Z) : list event :=
  [EvParams trainer; EvSet c.1.1 c.1.2 c.2; EvParamsRelease].

Fixpoint store_uses (trainer : ptr) (cs : list (string * option string * Z)) : list event :=
  match cs with
  | [] => []
  | c :: cs' => store_use trainer c ++ store_uses trainer cs'
  end.

(** The events [message_callback] gives rise to for the messages of the
    trainer, in their order. *)
Fixpoint forwarded (messages : list (string * list parg)) : list event :=
  match messages with
  | [] => []
  | m :: messages' => EvFprintf Stdout m.1 m.2 :: EvFflush Stdout :: forwarded messages'
  end.

(** The streams closed, and the files opened, in order. *)
Fixpoint closed (t : list event) : list FILE :=
  match t with
  | [] => []
  | EvFclose fp :: t' => fp :: closed t'
  | _ :: t' => closed t'
  end.

Fixpoint opened (t : list event) : list FILE :=
  match t with
  | [] => []
  | EvFopen f true :: t' => Fopened f :: opened t'
  | _ :: t' => opened t'
  end.

(** The streams among [fps] that are not the standard input. *)
Fixpoint not_stdin (fps : list FILE) : list FILE :=
  match fps with
  | [] => []
  | Stdin :: fps' => not_stdin fps'
  | fp :: fps' => fp :: not_stdin fps'
  end.

(** The events of the four stages of the body: getting the instances,
    setting the parameters, reading the data sets, training.  Output may
    come with any of them but the second. *)
Definition is_setup_event (e : event) : bool :=
  match e with EvCreate _ _ | EvFprintf _ _ _ => true | _ => false end.

Definition is_ingest_event (e : event) : bool :=
  match e with
  | EvFopen _ _ | EvReadData _ _ _ _ _ | EvFclose _ | EvFprintf _ _ _
  | EvFflush _ => true
  | _ => false
  end.

Definition is_training_event (e : event) : bool :=
  match e with
  | EvFprintf Stdout _ _ | EvFflush _ | EvSetMessageCallback _
  | EvTrain _ _ _ _ _ _ | EvTrained _ => true
  | _ => false
  end.

(** The stages of a body [t] run from the state [s] with the option set
    [opt]: what each stage may consist of, that every stream read is closed
    and every file opened is read, and what the training operation is
    called with. *)
Definition staged {W} (opt : learn_option_t) (s : machine W) (t : list event) : Prop :=
  exists tc tp tf tt,
    t = tc ++ tp ++ tf ++ tt /\
    Forall (fun e => is_setup_event e = true) tc /\
    Forall (fun e => is_param_event e = true) tp /\
    Forall (fun e => is_ingest_event e = true) tf /\
    Forall (fun e => is_training_event e = true) tt /\
    closed tf = (ingested tf).*1 /\
    opened tf = not_stdin (ingested tf).*1 /\
    (trainings tt = [] \/
     exists h : heap,
       trainings tt = [(load_str h (model opt) 0, holdout opt)] /\
       forall a, Some a ∉ params opt -> h !! a = mem s !! a).

(** A command line with an output path, a parameter and two data sets. *)
Definition two_data_sets : list string :=
  ["learn"; "-m"; "out.bin"; "-p"; "maxiterations=5"; "A.conll"; "B.conll"].

(** ** Flags

    The flags of the option map, in the order of its branches. *)
Inductive flag_kind := FModel | FTest | FHelp | FAlgorithm | FFeature | FParam.

Definition kind_of (c : ascii) (longname : string) : option flag_kind :=
  if SHORTOPT c "m" || LONGOPT c longname "model" then Some FModel
  else if SHORTOPT c "t" || LONGOPT c longname "test" then Some FTest
  else if SHORTOPT c "h" || LONGOPT c longname "help" then Some FHelp
  else if SHORTOPT c "a" || LONGOPT c longname "algorithm" then Some FAlgorithm
  else if SHORTOPT c "f" || LONGOPT c longname "feature" then Some FFeature
  else if SHORTOPT c "p" || LONGOPT c longname "param" then Some FParam
  else None.

(** The flags by their letters and names. *)
Definition recognised (c : ascii) (longname : string) : bool :=
  existsb (Ascii.eqb c) ["m"; "t"; "h"; "a"; "f"; "p"]%char
  || (Ascii.eqb c NUL
      && existsb (String.eqb longname)
           ["model"; "test"; "help"; "algorithm"; "feature"; "param"]).

(** One call of the handler: the flag character, the long name and the
    argument. *)
Definition call : Type := ascii * string * string.

(** The option set and the heap after one call of the handler, and after
    a sequence of calls. *)
Definition handle (atoi : string -> Z) (st : learn_option_t * heap) (c : call)
    : learn_option_t * heap :=
  (parse_learn_options atoi st.1 c.1.1 c.1.2 c.2 st.2).2.

Definition handle_all (atoi : string -> Z) (calls : list call)
    (st : learn_option_t * heap) : learn_option_t * heap :=
  foldl (handle atoi) st calls.

(** What a user has set: the values the flags given so far stand for,
    and how often the feature flag was given. *)
Record settings := Settings {
  output_path : string;
  algorithm_name : string;
  holdout_group : Z;
  help_requested : Z;
  raw_parameters : list string;
  feature_flags : nat
}.

Definition defaults : settings := Settings "crfsuite.model" "lbfgs" (-1) 0 [] 0.

Definition account (atoi : string -> Z) (a : settings) (c : call) : settings :=
  match kind_of c.1.1 c.1.2 with
  | Some FModel =>
      Settings c.2 (algorithm_name a) (holdout_group a) (help_requested a)
        (raw_parameters a) (feature_flags a)
  | Some FTest =>
      Settings (output_path a) (algorithm_name a) (int_wrap (atoi c.2 - 1))
        (help_requested a)
        (raw_parameters a) (feature_flags a)
  | Some FHelp =>
      Settings (output_path a) (algorithm_name a) (holdout_group a) 1
        (raw_parameters a) (feature_flags a)
  | Some FAlgorithm =>
      Settings (output_path a) c.2 (holdout_group a) (help_requested a)
        (raw_parameters a) (feature_flags a)
  | Some FFeature =>
      Settings c.2 (algorithm_name a) (holdout_group a) (help_requested a)
        (raw_parameters a) (S (feature_flags a))
  | Some FParam =>
      Settings (output_path a) (algorithm_name a) (holdout_group a) (help_requested a)
        (raw_parameters a ++ [c.2]) (feature_flags a)
  | None => a
  end.

Definition account_all (atoi : string -> Z) (calls : list call) : settings :=
  foldl (account atoi) defaults calls.

(** How often the block a pointer points to was freed. *)
Definition freed (h : heap) (p : ptr) : option nat :=
  match p with
  | Some a => frees <$> h !! a
  | None => None
  end.

(** The option set and the log of allocations stand for the settings [a],
    the heap having been [h0] when the option set was initialised: the
    fields point to separate allocations that hold the strings and were
    never freed, except that [type] still names the allocation of the
    default feature type, on which [free] was called once for each feature
    flag; no other allocation was freed more than once, and the blocks of
    [h0] are as they were. *)
Definition represents (h0 : heap) (a : settings) (st : learn_option_t * heap) : Prop :=
  exists m al ps,
    let ty := S (S (length h0)) in
    model st.1 = Some m /\ algorithm st.1 = Some al /\ type st.1 = Some ty /\
    params st.1 = Some <$> ps /\
    holdout st.1 = holdout_group a /\ help st.1 = help_requested a /\
    NoDup (m :: al :: ty :: ps) /\
    Forall (fun i => length h0 <= i)%nat (m :: al :: ps) /\
    st.2 !! m = Some (duplicate (output_path a)) /\
    st.2 !! al = Some (duplicate (algorithm_name a)) /\
    st.2 !! ty = Some (Block (bytes (duplicate "dyad")) (feature_flags a)) /\
    Forall2 (fun p s => st.2 !! p = Some (duplicate s)) ps (raw_parameters a) /\
    take (length h0) st.2 = h0 /\
    (forall i b, st.2 !! i = Some b -> length h0 <= i -> i <> ty -> frees b <= 1)%nat.

(** A name and a value put together again. *)
Definition join (nv : string * option string) : string :=
  match nv.2 with
  | Some v => nv.1 +:+ String "=" v
  | None => nv.1
  end.

(** Calls of the handler as a command line would give rise to, with one
    feature flag, and a holdout group given as the least [int]. *)
Definition some_flags : list call :=
  [("m"%char, EmptyString, "a.bin"); ("p"%char, EmptyString, "c1=0.5");
   ("f"%char, EmptyString, "b.bin"); (NUL, "param", "x=y=z");
   ("t"%char, EmptyString, "-2147483648"); (NUL, "algorithm", "sgd");
   ("z"%char, EmptyString, "ignored"); ("p"%char, EmptyString, "quiet")].

(** What the loop over the data sets does for the data sets [done], which
    could be opened, [k] being the group of the first: each is opened,
    unless it is [-], announced with its number, counted from 1, read with
    its group, counted from 0, and closed. *)
Fixpoint listing (attrs labels : ptr) (k : Z) (done : list (string * read_result))
    : list event :=
  match done with
  | [] => []
  | (f, result) :: done' =>
      (if String.eqb f "-" then [] else [EvFopen f true]) ++
      [EvFprintf Stdout ("%d - %s" +:+ LF) [PInt (k + 1); PStr f];
       EvReadData (stream_of f) attrs labels k result;
       EvFclose (stream_of f)] ++
      listing attrs labels (k + 1) done'
  end.

(** * Facts about traces *)

Ltac by_events t :=
  induction t as [|[] ? ?]; intros; simpl; repeat case_match; simpl; congruence.

Lemma released_app t1 t2 : released (t1 ++ t2) = released t1 ++ released t2.
Proof. by_events t1. Qed.

Lemma created_app t1 t2 : created (t1 ++ t2) = created t1 ++ created t2.
Proof. by_events t1. Qed.

Lemma creations_app t1 t2 : creations (t1 ++ t2) = creations t1 ++ creations t2.
Proof. by_events t1. Qed.

Lemma parameters_set_app t1 t2 :
  parameters_set (t1 ++ t2) = parameters_set t1 ++ parameters_set t2.
Proof. by_events t1. Qed.

Lemma ingested_app t1 t2 : ingested (t1 ++ t2) = ingested t1 ++ ingested t2.
Proof. by_events t1. Qed.

Lemma trainings_app t1 t2 : trainings (t1 ++ t2) = trainings t1 ++ trainings t2.
Proof. by_events t1. Qed.

Lemma trained_app t1 t2 : trained (t1 ++ t2) = trained t1 ++ trained t2.
Proof. by_events t1. Qed.

Lemma errors_app t1 t2 : errors (t1 ++ t2) = errors t1 ++ errors t2.
Proof. by_events t1. Qed.

Lemma failed_opens_app t1 t2 : failed_opens (t1 ++ t2) = failed_opens t1 ++ failed_opens t2.
Proof. by_events t1. Qed.

Create Rewrite HintDb trace.
#[global] Hint Rewrite released_app created_app creations_app parameters_set_app
  ingested_app trainings_app trained_app errors_app failed_opens_app : trace.

Lemma silent_params t :
  Forall (fun e => is_param_event e = true) t -> silent t.
Proof.
  induction 1 as [|e t He _ []]; [by split|].
  destruct e; try discriminate; split; simpl; assumption.
Qed.

Lemma silent_output t :
  Forall (fun e => is_output e = true) t -> silent t /\ parameters_set t = [].
Proof.
  induction 1 as [|e t He _ [[] ?]]; [by repeat split|].
  destruct e as [[]| | | | | | | | | | | | | |]; try discriminate; repeat split; simpl; assumption.
Qed.

Ltac trace_facts :=
  repeat (progress (autorewrite with trace; simpl));
  repeat match goal with H : _ = [] |- _ => rewrite H end;
  simpl; try done.

(** * The steps of the command *)

Section Facts.

Context {W : Type} (E : externals W).
Implicit Types (s : machine W) (t : list event).

Lemma main_learn_eq argv argv0 s :
  main_learn E argv argv0 s =
  let '(n, opt, s1) := parsed E argv s in
  let '(l, s2, t2) := learn_steps E (tl argv) argv0 (List.hd EmptyString argv) n opt s1 in
  let '(r, s3, t3) := force_exit opt l s2 in
  (r, s3, EvDataInit :: t2 ++ t3).
Proof.
  unfold main_learn, parsed, bind_M, on_heap, emit.
  destruct (learn_option_init (mem s)) as [opt0 h0]. simpl.
  destruct (option_parse E _ _ opt0 h0) as [n [opt h]]. simpl.
  destruct (learn_steps E _ _ _ n opt _) as [[l s2] t2].
  destruct (force_exit opt l s2) as [[r s3] t3]. reflexivity.
Qed.

Lemma parsed_next_obj argv s : next_obj (parsed E argv s).2 = next_obj s.
Proof.
  unfold parsed. destruct (learn_option_init (mem s)) as [opt0 h0].
  by destruct (option_parse E _ _ opt0 h0) as [n [opt h]].
Qed.

Lemma force_exit_eq opt l s :
  force_exit opt l s =
  (ret l, Machine (learn_option_finish opt (mem s)) (next_obj s) (world s),
   (EvRelease <$> omap id [trainer l; labels l; attrs l]) ++ [EvDataFinish]).
Proof. destruct l as [r [t|] [b|] [a|]]; reflexivity. Qed.

Lemma create_instance_cases iid s :
  (exists r w, (r =? 0) = false /\
     create_instance E iid s =
       ((r, Some (next_obj s)), Machine (mem s) (S (next_obj s)) w,
        [EvCreate iid (Some (next_obj s))]))
  \/ (exists w,
     create_instance E iid s =
       ((0, None), Machine (mem s) (next_obj s) w, [EvCreate iid None])).
Proof.
  unfold create_instance, bind_M, extern, emit, new_obj, unit_M.
  destruct (crf_create_instance E iid (world s)) as [r w].
  destruct (r =? 0) eqn:Hr; [right | left].
  - apply Z.eqb_eq in Hr as ->. eauto.
  - eauto.
Qed.

Lemma foreach_Forall {A} (P : event -> Prop) (body : A -> @M W unit) l s :
  (forall a s, Forall P (body a s).2) ->
  Forall P (foreach l body s).2.
Proof.
  intros Hb. revert s. induction l as [|a l IH]; intros s; simpl.
  - constructor.
  - unfold bind_M. specialize (Hb a s).
    destruct (body a s) as [[u s1] t1]. specialize (IH s1).
    destruct (foreach l body s1) as [[u' s2] t2]. simpl in *.
    apply Forall_app; auto.
Qed.

Lemma set_parameter_events trainer name s :
  Forall (fun e => is_param_event e = true) (set_parameter E trainer name s).2.
Proof.
  unfold set_parameter, bind_M, on_heap, extern, emit. simpl.
  destruct (split_param name (mem s)) as [v h]. simpl.
  destruct (params_set E _ _ _) as [a w]. simpl.
  repeat constructor.
Qed.

Lemma set_parameters_silent trainer opt s :
  silent (set_parameters E trainer opt s).2.
Proof.
  apply silent_params, foreach_Forall. intros. apply set_parameter_events.
Qed.

Lemma set_parameters_next_obj trainer opt s :
  next_obj (set_parameters E trainer opt s).1.2 = next_obj s.
Proof.
  unfold set_parameters. revert s.
  induction (params opt) as [|p ps IH]; intros s; simpl; [done|].
  unfold bind_M at 1.
  assert (next_obj (set_parameter E trainer p s).1.2 = next_obj s) as Hp.
  { unfold set_parameter, bind_M, on_heap, extern, emit. simpl.
    destruct (split_param p (mem s)) as [v h]. simpl.
    by destruct (params_set E _ _ _) as [a w]. }
  destruct (set_parameter E trainer p s) as [[u s1] t1].
  specialize (IH s1). destruct (foreach ps _ s1) as [[u' s2] t2].
  simpl in *. congruence.
Qed.

Lemma log_time_output format s :
  Forall (fun e => is_output e = true) (log_time E format s).2.
Proof.
  unfold log_time, bind_M, extern, fprintf, emit.
  destruct (time E (world s)) as [ts w]. simpl. repeat constructor.
Qed.

Lemma show_usage_output argv0 command s :
  Forall (fun e => is_output e = true) (show_usage Stdout argv0 command s).2.
Proof. unfold show_usage, bind_M, fprintf, emit. simpl. repeat constructor. Qed.

Lemma open_data_set_cases f s :
  (exists w, open_data_set E f s =
     (Some (stream_of f), Machine (mem s) (next_obj s) w,
      if String.eqb f "-" then [] else [EvFopen f true]))
  \/ (exists w, open_data_set E f s =
     (None, Machine (mem s) (next_obj s) w, [EvFopen f false])).
Proof.
  unfold open_data_set, stream_of. destruct (String.eqb f "-").
  - left. exists (world s). by destruct s.
  - unfold bind_M, extern, emit, unit_M.
    destruct (fopen E f (world s)) as [[|] w]; simpl; [left | right]; eauto.
Qed.

Lemma read_data_sets_spec files : forall k a b s,
  let '(opened, s', t) := read_data_sets E files k a b s in
  trainings t = [] /\ trained t = [] /\ created t = [] /\ creations t = [] /\
  released t = [] /\ parameters_set t = [] /\
  if opened
  then ingested t = tagged k files /\ failed_opens t = [] /\ errors t = []
  else exists done f rest,
         files = done ++ f :: rest /\ ingested t = tagged k done /\
         failed_opens t = [f] /\ errors t = [open_error f].
Proof.
  induction files as [|f files IH]; intros k a b s; simpl.
  - repeat split.
  - unfold bind_M at 1.
    destruct (open_data_set_cases f s) as [(w & ->) | (w & ->)].
    + unfold bind_M, fprintf, emit, extern. simpl.
      destruct (read_data E (stream_of f) a b k w) as [res w']. simpl.
      specialize (IH (k + 1) a b (Machine (mem s) (next_obj s) w')).
      destruct (read_data_sets E files (k + 1) a b _) as [[opened s'] t].
      destruct IH as (Ht & Htd & Hc & Hcs & Hr & Hp & IH).
      autorewrite with trace.
      destruct (String.eqb f "-"); simpl; rewrite Ht, Htd, Hc, Hcs, Hr, Hp; repeat split.
      all: destruct opened;
        [ destruct IH as (-> & -> & ->); done
        | destruct IH as (dn & f' & rest & -> & -> & -> & ->);
          by exists (f :: dn), f', rest ].
    + unfold bind_M, fprintf, emit, unit_M. simpl. repeat split.
      by exists [], f, files.
Qed.

Lemma message_callback_output format args s :
  Forall (fun e => is_output e = true) (message_callback format args s).2.
Proof. unfold message_callback, bind_M, emit. simpl. repeat constructor. Qed.

Lemma report_and_train_spec opt c1 c2 tr lb at_ s :
  let '(l, s', t) := report_and_train E opt c1 c2 tr lb at_ s in
  l = Locals (ret l) tr lb at_ /\
  released t = [] /\ created t = [] /\ creations t = [] /\ ingested t = [] /\
  errors t = [] /\ failed_opens t = [] /\ parameters_set t = [] /\
  trained t = [ret l] /\
  exists path, trainings t = [(path, holdout opt)].
Proof.
  unfold report_and_train, bind_M, query, fprintf, emit, on_heap, extern. simpl.
  destruct (trainer_train E _ _ _ _ _ _ _) as [[msgs r] w]. simpl.
  match goal with |- context [foreach msgs ?b ?s1] =>
    pose proof (foreach_Forall (fun e => is_output e = true) b msgs s1) as Hm;
    destruct (foreach msgs b s1) as [[u s2] tm] end.
  simpl in Hm. apply silent_output in Hm as [[] ?].
  2:{ intros [f a] s0. unfold bind_M, unit_M. simpl. repeat constructor. }
  destruct (negb (r =? 0)).
  - unfold unit_M. simpl. split; [done|].
    repeat split; try eexists; trace_facts.
  - pose proof (log_time_output (String.append "End time of the training: %s" LF) s2) as Hl.
    unfold log_time, bind_M, extern, fprintf, emit in *.
    destruct (time E (world s2)) as [ts w2]. simpl in *.
    repeat split; try eexists; trace_facts.
Qed.

Lemma train_on_data_sets_spec opt files tr lb at_ s :
  let '(l, s', t) := train_on_data_sets E opt files tr lb at_ s in
  l = Locals (ret l) tr lb at_ /\
  released t = [] /\ created t = [] /\ creations t = [] /\
  ((exists f, ret l = 1 /\
      (exists done rest, files = done ++ f :: rest /\ ingested t = tagged 0 done) /\
      failed_opens t = [f] /\ errors t = [open_error f] /\ trainings t = [] /\
      trained t = [])
   \/ (ingested t = tagged 0 files /\ failed_opens t = [] /\ errors t = [] /\
       trained t = [ret l] /\
       exists path, trainings t = [(path, holdout opt)])).
Proof.
  unfold train_on_data_sets, bind_M at 1.
  pose proof (set_parameters_silent tr opt s) as [].
  destruct (set_parameters E tr opt s) as [[u s1] tp]. simpl in *.
  unfold bind_M at 1.
  pose proof (log_time_output (String.append "Start time of the training: %s" LF) s1) as Hl.
  destruct (log_time E _ s1) as [[u1 s2] tl]. simpl in Hl.
  apply silent_output in Hl as [[] _].
  unfold bind_M, fprintf, emit, extern. simpl.
  destruct (clock E (world s2)) as [c1 w1]. simpl.
  match goal with |- context [read_data_sets E files 0 at_ lb ?s3] =>
    pose proof (read_data_sets_spec files 0 at_ lb s3) as Hr;
    destruct (read_data_sets E files 0 at_ lb s3) as [[opened s4] tf] end.
  destruct Hr as (? & ? & ? & ? & ? & ? & Hr).
  destruct opened; simpl.
  - destruct (clock E (world s4)) as [c2 w2]. simpl.
    match goal with |- context [report_and_train E opt c1 c2 tr lb at_ ?s5] =>
      pose proof (report_and_train_spec opt c1 c2 tr lb at_ s5) as Ht;
      destruct (report_and_train E opt c1 c2 tr lb at_ s5) as [[l s6] tt] end.
    destruct Ht as (Hl & ? & ? & ? & ? & ? & ? & ? & Htd & path & Hpath).
    destruct Hr as (Hi & ? & ?).
    split; [done|]. do 3 (split; [by trace_facts|]).
    right. repeat split; trace_facts.
    + by rewrite Hi, app_nil_r.
    + exists path. trace_facts.
  - destruct Hr as (dn & f & rest & -> & Hi & Hf & He).
    split; [done|]. do 3 (split; [by trace_facts|]).
    left. exists f. repeat split; trace_facts.
    + exists dn, rest. split; [done|]. by rewrite app_nil_r.
    + by rewrite Hf.
    + by rewrite He.
Qed.

(** Every run of the body follows one of the exit paths. *)
Lemma learn_steps_path args argv0 command n opt s :
  let '(l, s', t) := learn_steps E args argv0 command n opt s in
  exists p, follows p n opt (drop (Z.to_nat n) args) (next_obj s) l t.
Proof.
  unfold learn_steps.
  destruct (n <? 0) eqn:Hn.
  { exists ParseFailure. apply Z.ltb_lt in Hn. by repeat split. }
  apply Z.ltb_ge in Hn.
  destruct (help opt =? 0) eqn:Hh; simpl.
  2:{ apply Z.eqb_neq in Hh. unfold bind_M.
      pose proof (show_usage_output argv0 command s) as Hu.
      destruct (show_usage Stdout argv0 command s) as [[u s1] tu]. simpl in *.
      apply silent_output in Hu as [[] ?].
      exists HelpShown. unfold follows, unit_M.
      repeat split; trace_facts. }
  apply Z.eqb_eq in Hh.
  unfold bind_M at 1.
  destruct (create_instance_cases "dictionary" s) as [(r1 & w1 & Hr1 & ->) | (w1 & ->)]; simpl.
  2:{ exists (CreationFailure 0). unfold follows, bind_M, fprintf, emit. simpl.
      repeat split; trace_facts; lia. }
  rewrite Hr1. unfold bind_M at 1.
  match goal with |- context [create_instance E "dictionary" ?s1] =>
    destruct (create_instance_cases "dictionary" s1) as [(r2 & w2 & Hr2 & ->) | (w2 & ->)] end;
    simpl.
  2:{ exists (CreationFailure 1). unfold follows, bind_M, fprintf, emit. simpl.
      repeat split; trace_facts; lia. }
  rewrite Hr2. unfold bind_M at 1.
  match goal with |- context [create_instance E "train/crf1d/lbfgs" ?s1] =>
    destruct (create_instance_cases "train/crf1d/lbfgs" s1)
      as [(r3 & w3 & Hr3 & ->) | (w3 & ->)] end;
    simpl.
  2:{ exists (CreationFailure 2). unfold follows, bind_M, fprintf, emit. simpl.
      repeat split; trace_facts; lia. }
  rewrite Hr3.
  match goal with |- context [train_on_data_sets E opt ?fs ?tr ?lb ?a ?s1] =>
    pose proof (train_on_data_sets_spec opt fs tr lb a s1) as Ht;
    destruct (train_on_data_sets E opt fs tr lb a s1) as [[l s'] t] end.
  destruct Ht as (Hl & Hrel & Hc & Hcs &
    [(f & Hret & Hfiles & Hf & He & Htr & Htd) | (Hi & Hf & He & Htd & Htr)]).
  - exists (OpenFailure f). unfold follows. rewrite Hl. simpl.
    rewrite Hrel, Hc, Hcs. by repeat split.
  - exists (TrainingEnd (ret l)). unfold follows. rewrite Hl. simpl.
    rewrite Hrel, Hc, Hcs. by repeat split.
Qed.

Lemma follows_releases p n opt files o l t :
  follows p n opt files o l t ->
  omap id [trainer l; labels l; attrs l] = reverse (created t).*2.
Proof.
  intros (_ & Hc & Hl & Hp). rewrite Hc in *.
  destruct l as [r tr lb a]. simpl in Hl.
  destruct p as [| |k| |]; simpl in *.
  3:{ destruct Hp as (_ & _ & Hk & _).
      destruct k as [|[|[|k]]]; [| | |lia]; simpl in *; by simplify_eq. }
  all: by simplify_eq.
Qed.

(** The whole run: the body follows an exit path, then the instances the
    body created are released, last created first, and the data set is
    finished. *)
Lemma main_learn_path argv argv0 s :
  let '(r, s', t) := main_learn E argv argv0 s in
  exists p l body,
    follows p (parsed E argv s).1.1 (parsed E argv s).1.2 (positional E argv s)
      (next_obj s) l body /\
    r = ret l /\
    t = EvDataInit :: body ++ (EvRelease <$> reverse (created body).*2) ++ [EvDataFinish].
Proof.
  rewrite main_learn_eq. unfold positional.
  pose proof (parsed_next_obj argv s) as Ho.
  destruct (parsed E argv s) as [[n opt] s1]. simpl in *.
  pose proof (learn_steps_path (tl argv) argv0 (List.hd EmptyString argv) n opt s1) as Hp.
  destruct (learn_steps E _ _ _ n opt s1) as [[l s2] t2].
  destruct Hp as [p Hp]. rewrite force_exit_eq, Ho in *.
  exists p, l, t2. rewrite (follows_releases _ _ _ _ _ _ _ Hp). done.
Qed.

End Facts.

(** * Resource release *)

Lemma released_releases (os : list nat) : released (EvRelease <$> os) = os.
Proof. induction os as [|o os IH]; [done|]. rewrite fmap_cons. simpl. congruence. Qed.

Lemma created_releases (os : list nat) : created (EvRelease <$> os) = [].
Proof. induction os as [|o os IH]; [done|]. rewrite fmap_cons. simpl. congruence. Qed.

Lemma created_before_NoDup p o : NoDup (created_before p o).*2.
Proof.
  assert (NoDup (instances o).*2) as Hi.
  { simpl. repeat (apply NoDup_cons; split); try apply NoDup_nil_2;
      rewrite ?not_elem_of_cons; repeat split; try lia; apply not_elem_of_nil. }
  destruct p; try done; try apply NoDup_nil_2.
  unfold created_before. rewrite fmap_take. eapply sublist_NoDup; [done | apply sublist_take].
Qed.

(** C1. On every exit path the trace of [main_learn] ends with the one
    cleanup at [force_exit]: the body releases nothing; the cleanup releases
    exactly the instances the body created, last created first (the
    trainer, then the label dictionary, then the attribute dictionary), each
    of them once, and then finishes the data set.  [SAFE_RELEASE] does
    nothing on a pointer that is NULL, and leaves the pointer NULL, so that a
    second release does nothing. *)
Theorem cleanup_on_every_exit_path {W} (E : externals W) (argv : list string)
    (argv0 : string) (s : machine W) :
  let '(r, s', t) := main_learn E argv argv0 s in
  (exists p body,
     t = body ++ (EvRelease <$> reverse (created_before p (next_obj s)).*2) ++ [EvDataFinish] /\
     released body = [] /\
     created body = created_before p (next_obj s) /\
     match p with CreationFailure k => (k < 3)%nat | _ => True end) /\
  released t = reverse (created t).*2 /\
  NoDup (released t) /\
  (forall s0 : machine W, SAFE_RELEASE None s0 = (None, s0, [])) /\
  (forall (obj : ptr) (s0 : machine W),
     let '(obj', s1, _) := SAFE_RELEASE obj s0 in
     obj' = None /\ SAFE_RELEASE obj' s1 = (None, s1, [])).
Proof.
  pose proof (main_learn_path E argv argv0 s) as Hp.
  destruct (main_learn E argv argv0 s) as [[r s'] t].
  destruct Hp as (p & l & body & Hf & _ & ->).
  pose proof Hf as (Hrel & Hc & _ & Hcase).
  assert (released (EvDataInit :: body ++ (EvRelease <$> reverse (created body).*2) ++ [EvDataFinish])
          = reverse (created body).*2) as Hr.
  { simpl. autorewrite with trace. rewrite Hrel, released_releases. simpl.
    by rewrite app_nil_r. }
  assert (created (EvDataInit :: body ++ (EvRelease <$> reverse (created body).*2) ++ [EvDataFinish])
          = created body) as Hcr.
  { simpl. autorewrite with trace. rewrite created_releases. simpl.
    by rewrite app_nil_r. }
  split; [|split; [|split; [|split]]].
  - exists p, (EvDataInit :: body). rewrite <- Hc. repeat split; try done.
    destruct p; try done. by destruct Hcase as (_ & _ & Hk & _).
  - by rewrite Hr, Hcr.
  - rewrite Hr, Hc, reverse_Permutation. apply created_before_NoDup.
  - done.
  - by intros [o|] s0.
Qed.

Lemma cleanup_projections body (os : list nat) :
  let t := EvDataInit :: body ++ (EvRelease <$> os) ++ [EvDataFinish] in
  created t = created body /\ creations t = creations body /\
  parameters_set t = parameters_set body /\ ingested t = ingested body /\
  trainings t = trainings body /\ trained t = trained body /\
  errors t = errors body /\ failed_opens t = failed_opens body.
Proof.
  simpl. autorewrite with trace.
  assert (created (EvRelease <$> os) = [] /\ creations (EvRelease <$> os) = [] /\
          parameters_set (EvRelease <$> os) = [] /\ ingested (EvRelease <$> os) = [] /\
          trainings (EvRelease <$> os) = [] /\ trained (EvRelease <$> os) = [] /\
          errors (EvRelease <$> os) = [] /\ failed_opens (EvRelease <$> os) = [])
    as (-> & -> & -> & -> & -> & -> & -> & ->).
  { induction os as [|o os IH]; [done|]. rewrite fmap_cons. simpl. done. }
  simpl. rewrite !app_nil_r. done.
Qed.

(** * Help *)

(** C9. When the options were scanned and the help flag is set, the run
    does nothing but print the usage on the standard output, between the
    set-up and the release of the data set: the trace is the nine lines of
    the usage, the first of them with the name of the program and of the
    command, and nothing else.  In particular [crf_create_instance] is never
    called, nothing is written to the standard error, no file is opened, no
    training takes place, and the exit code is 0. *)
Theorem help_exits_before_any_creation {W} (E : externals W) (argv : list string)
    (argv0 : string) (s : machine W) :
  0 <= (parsed E argv s).1.1 ->
  help (parsed E argv s).1.2 <> 0 ->
  let '(r, s', t) := main_learn E argv argv0 s in
  r = 0 /\
  t = [EvDataInit;
       EvFprintf Stdout ("USAGE: %s %s [OPTIONS] [DATA]" +:+ LF) [PStr argv0; PStr (List.hd EmptyString argv)];
       EvFprintf Stdout ("Obtain a model from a training set of instances given by a file (DATA)." +:+ LF) [];
       EvFprintf Stdout ("If argument DATA is omitted or '-', this utility reads a data from STDIN." +:+ LF) [];
       EvFprintf Stdout LF [];
       EvFprintf Stdout ("OPTIONS:" +:+ LF) [];
       EvFprintf Stdout ("    -m, --model=MODEL   Store the obtained model in a file (MODEL)" +:+ LF) [];
       EvFprintf Stdout ("    -t, --test=TEST     Report the performance of the model on a data (TEST)" +:+ LF) [];
       EvFprintf Stdout ("    -p, --param=NAME=VALUE  Set the parameter NAME to VALUE" +:+ LF) [];
       EvFprintf Stdout ("    -h, --help          Show the usage of this command and exit" +:+ LF) [];
       EvDataFinish] /\
  creations t = [] /\ created t = [] /\ released t = [] /\
  errors t = [] /\ trainings t = [] /\ ingested t = [] /\
  mem s' = learn_option_finish (parsed E argv s).1.2 (mem (parsed E argv s).2) /\
  next_obj s' = next_obj s.
Proof.
  intros Hn Hh. rewrite main_learn_eq.
  assert (next_obj (parsed E argv s).2 = next_obj s) as Ho.
  { unfold parsed. destruct (learn_option_init (mem s)) as [opt0 h0].
    by destruct (option_parse E _ _ opt0 h0) as [n [opt h]]. }
  destruct (parsed E argv s) as [[n opt] s1]. simpl in *.
  unfold learn_steps.
  apply Z.ltb_ge in Hn as ->. apply Z.eqb_neq in Hh as ->. simpl.
  unfold bind_M, show_usage, fprintf, emit, unit_M. simpl. done.
Qed.

Lemma help_exits_before_any_creation_witness :
  0 <= (parsed (sim fine) ["learn"; "-h"] boot).1.1 /\
  help (parsed (sim fine) ["learn"; "-h"] boot).1.2 <> 0 /\
  let '(r, s', t) := main_learn (sim fine) ["learn"; "-h"] "crfsuite" boot in
  r = 0 /\
  t = [EvDataInit;
       EvFprintf Stdout ("USAGE: %s %s [OPTIONS] [DATA]" +:+ LF) [PStr "crfsuite"; PStr "learn"];
       EvFprintf Stdout ("Obtain a model from a training set of instances given by a file (DATA)." +:+ LF) [];
       EvFprintf Stdout ("If argument DATA is omitted or '-', this utility reads a data from STDIN." +:+ LF) [];
       EvFprintf Stdout LF [];
       EvFprintf Stdout ("OPTIONS:" +:+ LF) [];
       EvFprintf Stdout ("    -m, --model=MODEL   Store the obtained model in a file (MODEL)" +:+ LF) [];
       EvFprintf Stdout ("    -t, --test=TEST     Report the performance of the model on a data (TEST)" +:+ LF) [];
       EvFprintf Stdout ("    -p, --param=NAME=VALUE  Set the parameter NAME to VALUE" +:+ LF) [];
       EvFprintf Stdout ("    -h, --help          Show the usage of this command and exit" +:+ LF) [];
       EvDataFinish] /\
  creations t = [] /\ created t = [] /\ released t = [] /\
  errors t = [] /\ trainings t = [] /\ ingested t = [] /\
  mem s' = learn_option_finish (parsed (sim fine) ["learn"; "-h"] boot).1.2
             (mem (parsed (sim fine) ["learn"; "-h"] boot).2) /\
  next_obj s' = next_obj boot.
Proof.
  split; [by vm_compute|]. split; [by vm_compute|].
  apply (help_exits_before_any_creation (sim fine) ["learn"; "-h"] "crfsuite" boot);
    by vm_compute.
Defined.

(** * Data sets *)

Lemma tagged_by_position files : forall k,
  tagged k files = imap (fun i f => (stream_of f, k + Z.of_nat i)) files.
Proof.
  induction files as [|f files IH]; intros k; [done|].
  simpl. rewrite IH. f_equal; [f_equal; lia|].
  apply imap_ext. intros i x _. simpl. f_equal. lia.
Qed.

Lemma tagged_app k fs1 fs2 :
  tagged k (fs1 ++ fs2) = tagged k fs1 ++ tagged (k + Z.of_nat (length fs1)) fs2.
Proof.
  revert k. induction fs1 as [|f fs1 IH]; intros k; simpl.
  - f_equal. lia.
  - rewrite IH. do 3 f_equal. lia.
Qed.

(** C3, as the code has it.  When a data set cannot be opened, the run ends
    with exit code 1 and exactly one message on the error stream, which
    names that file; the data sets listed before it have been read, no other
    is, and the training operation is not called.  What the data reader
    answers plays no part. *)
Theorem open_failure_is_fatal {W} (E : externals W) (argv : list string)
    (argv0 : string) (s : machine W) (f : string) :
  let '(r, s', t) := main_learn E argv argv0 s in
  f ∈ failed_opens t ->
  r = 1 /\
  errors t = [open_error f] /\
  trainings t = [] /\ trained t = [] /\
  exists done rest,
    positional E argv s = done ++ f :: rest /\ ingested t = by_position done.
Proof.
  pose proof (main_learn_path E argv argv0 s) as Hp.
  destruct (main_learn E argv argv0 s) as [[r s'] t].
  destruct Hp as (p & l & body & (_ & _ & _ & Hp) & -> & ->).
  destruct (cleanup_projections body (reverse (created body).*2))
    as (_ & _ & _ & -> & -> & -> & -> & ->).
  intros Hf. destruct p.
  - destruct Hp as (_ & -> & _). by apply elem_of_nil in Hf.
  - destruct Hp as (_ & _ & _ & _ & _ & _ & Hfo & _). rewrite Hfo in Hf.
    by apply elem_of_nil in Hf.
  - destruct Hp as (_ & _ & _ & _ & _ & _ & _ & Hfo & _). rewrite Hfo in Hf.
    by apply elem_of_nil in Hf.
  - destruct Hp as (_ & _ & Hr & _ & (dn & rest & Hfiles & Hi) & Hfo & He & Ht & Htd).
    rewrite Hfo in Hf. apply list_elem_of_singleton in Hf as ->.
    repeat split; try done. exists dn, rest. split; [done|].
    rewrite Hi. apply tagged_by_position.
  - destruct Hp as (_ & _ & _ & _ & _ & Hfo & _). rewrite Hfo in Hf.
    by apply elem_of_nil in Hf.
Qed.

Lemma open_failure_is_fatal_witness :
  let '(r, s', t) := main_learn (sim missing_b) ["learn"; "a.txt"; "b.txt"; "c.txt"]
                       "crfsuite" boot in
  "b.txt" ∈ failed_opens t /\
  (r = 1 /\
   errors t = [open_error "b.txt"] /\
   trainings t = [] /\ trained t = [] /\
   exists done rest,
     positional (sim missing_b) ["learn"; "a.txt"; "b.txt"; "c.txt"] boot
       = done ++ "b.txt" :: rest /\
     ingested t = by_position done).
Proof.
  pose proof (open_failure_is_fatal (sim missing_b) ["learn"; "a.txt"; "b.txt"; "c.txt"]
                "crfsuite" boot "b.txt") as H.
  destruct (main_learn (sim missing_b) _ _ boot) as [[r s'] t] eqn:Hrun.
  vm_compute in Hrun. injection Hrun as <- <- <-.
  assert ("b.txt" ∈ failed_opens [EvFopen "b.txt" false]) as Hin by apply list_elem_of_here.
  split; [exact Hin|]. apply H. exact Hin.
Defined.

(** The data reader failing on [b.txt] does not stop the run: the third
    data set is read, the training operation is called and the exit code is
    0, with nothing on the error stream. *)
Lemma read_failure_is_not_fatal :
  ~ io_failure_aborts (sim unreadable_b) ["learn"; "a.txt"; "b.txt"; "c.txt"] "crfsuite" boot.
Proof.
  unfold io_failure_aborts.
  destruct (main_learn (sim unreadable_b) _ _ boot) as [[r s'] t] eqn:Hrun.
  vm_compute in Hrun. injection Hrun as <- <- <-.
  intros H. destruct (H "b.txt") as (Hr & _).
  - right. simpl. apply list_elem_of_here.
  - discriminate Hr.
Qed.

(** C8. The data reader is called on the data sets one after the other in
    the order of the command line, each with its position among them as
    group: the calls are a prefix of the list of positions, and when the run
    gets as far as training they are the whole list, so that [N] data sets
    get the groups [0 .. N-1].  Nothing the reader answers enters into it. *)
Theorem groups_follow_listing_order {W} (E : externals W) (argv : list string)
    (argv0 : string) (s : machine W) :
  let '(r, s', t) := main_learn E argv argv0 s in
  ingested t `prefix_of` by_position (positional E argv s) /\
  (trainings t <> [] ->
   ingested t = by_position (positional E argv s) /\
   (ingested t).*2 = Z.of_nat <$> seq 0 (length (positional E argv s))).
Proof.
  pose proof (main_learn_path E argv argv0 s) as Hp.
  destruct (main_learn E argv argv0 s) as [[r s'] t].
  destruct Hp as (p & l & body & (_ & _ & _ & Hp) & -> & ->).
  destruct (cleanup_projections body (reverse (created body).*2))
    as (_ & _ & _ & -> & -> & _).
  unfold by_position.
  assert (forall fs : list string,
            (imap (fun i f => (stream_of f, Z.of_nat i)) fs).*2
            = Z.of_nat <$> seq 0 (length fs)) as Hseq.
  { intros fs. rewrite fmap_imap. apply (imap_seq_0 fs Z.of_nat). }
  destruct p.
  - destruct Hp as (_ & -> & _). split; [apply prefix_nil | done].
  - destruct Hp as (_ & _ & _ & _ & _ & -> & _ & _ & -> & _).
    split; [apply prefix_nil | done].
  - destruct Hp as (_ & _ & _ & _ & _ & _ & -> & _ & _ & -> & _).
    split; [apply prefix_nil | done].
  - destruct Hp as (_ & _ & _ & _ & (dn & rest & -> & ->) & _ & _ & -> & _).
    split; [|done]. rewrite tagged_by_position, imap_app.
    by apply prefix_app_r.
  - destruct Hp as (_ & _ & _ & _ & -> & _).
    rewrite tagged_by_position. split; [done|]. intros _. split; [done|]. apply Hseq.
Qed.

Lemma groups_follow_listing_order_witness :
  let '(r, s', t) := main_learn (sim fine) ["learn"; "-t"; "2"; "a.txt"; "-"; "c.txt"]
                       "crfsuite" boot in
  trainings t <> [] /\
  ingested t = [(Fopened "a.txt", 0); (Stdin, 1); (Fopened "c.txt", 2)] /\
  (ingested t).*2 =
    Z.of_nat <$> seq 0 (length (positional (sim fine)
                                  ["learn"; "-t"; "2"; "a.txt"; "-"; "c.txt"] boot)).
Proof.
  pose proof (groups_follow_listing_order (sim fine)
                ["learn"; "-t"; "2"; "a.txt"; "-"; "c.txt"] "crfsuite" boot) as H.
  destruct (main_learn (sim fine) _ _ boot) as [[r s'] t] eqn:Hrun.
  vm_compute in Hrun. injection Hrun as <- <- <-.
  destruct H as [_ H].
  assert (trainings [EvTrain (Some 2%nat) 0 (Some 0%nat) (Some 1%nat) "crfsuite.model" 1] <> [])
    as Ht by discriminate.
  split; [exact Ht|]. destruct (H Ht) as [H1 H2]. split; [exact H1 | exact H2].
Defined.

(** * Parameters the store refuses *)

Lemma rejected_app t1 t2 : rejected (t1 ++ t2) = rejected t1 ++ rejected t2.
Proof. by_events t1. Qed.

Lemma rejected_parameters_set t : parameters_set t = [] -> rejected t = [].
Proof. induction t as [|[] t IH]; simpl; try done. Qed.

Lemma rejected_cleanup body (os : list nat) :
  rejected (EvDataInit :: body ++ (EvRelease <$> os) ++ [EvDataFinish]) = rejected body.
Proof.
  simpl. rewrite !rejected_app.
  assert (rejected (EvRelease <$> os) = []) as ->.
  { induction os as [|o os IH]; [done|]. by rewrite fmap_cons. }
  simpl. by rewrite app_nil_r.
Qed.

(** C2, as the code has it.  The answer of the store is not looked at.
    After the store has refused a name, the run goes on as if it had not:
    either every data set is opened, the training operation is called once
    with the holdout group of the option set, and the exit code is its
    result, with nothing on the error stream; or a data set cannot be opened
    and the run ends as it does then.  No message ever names the
    parameter. *)
Theorem refused_parameter_is_ignored {W} (E : externals W) (argv : list string)
    (argv0 : string) (s : machine W) (name : string) :
  let '(r, s', t) := main_learn E argv argv0 s in
  name ∈ rejected t ->
  (failed_opens t = [] /\ errors t = [] /\ trained t = [r] /\
   exists path, trainings t = [(path, holdout (parsed E argv s).1.2)])
  \/ (exists f, failed_opens t = [f] /\ errors t = [open_error f] /\ r = 1 /\
               trainings t = []).
Proof.
  pose proof (main_learn_path E argv argv0 s) as Hp.
  destruct (main_learn E argv argv0 s) as [[r s'] t].
  destruct Hp as (p & l & body & (_ & _ & _ & Hp) & -> & ->).
  rewrite rejected_cleanup.
  destruct (cleanup_projections body (reverse (created body).*2))
    as (_ & _ & _ & _ & -> & -> & -> & ->).
  intros Hin. destruct p.
  - destruct Hp as (_ & -> & _). by apply elem_of_nil in Hin.
  - destruct Hp as (_ & _ & _ & _ & Hps & _).
    rewrite (rejected_parameters_set _ Hps) in Hin. by apply elem_of_nil in Hin.
  - destruct Hp as (_ & _ & _ & _ & _ & Hps & _).
    rewrite (rejected_parameters_set _ Hps) in Hin. by apply elem_of_nil in Hin.
  - destruct Hp as (_ & _ & Hr & _ & _ & Hfo & He & Ht & _).
    right. by exists f.
  - destruct Hp as (_ & _ & Hr & _ & _ & Hfo & He & Htd & Ht).
    left. by rewrite Hr.
Qed.

Lemma refused_parameter_is_ignored_witness :
  let '(r, s', t) := main_learn (sim refusing) ["learn"; "-p"; "bogus=1"; "a.txt"]
                       "crfsuite" boot in
  "bogus" ∈ rejected t /\
  ((failed_opens t = [] /\ errors t = [] /\ trained t = [r] /\
    exists path, trainings t =
      [(path, holdout (parsed (sim refusing) ["learn"; "-p"; "bogus=1"; "a.txt"] boot).1.2)])
   \/ (exists f, failed_opens t = [f] /\ errors t = [open_error f] /\ r = 1 /\
                trainings t = [])).
Proof.
  pose proof (refused_parameter_is_ignored (sim refusing)
                ["learn"; "-p"; "bogus=1"; "a.txt"] "crfsuite" boot "bogus") as H.
  destruct (main_learn (sim refusing) _ _ boot) as [[r s'] t] eqn:Hrun.
  vm_compute in Hrun. injection Hrun as <- <- <-.
  assert ("bogus" ∈ rejected [EvSet "bogus" (Some "1") (-1)]) as Hin
    by apply list_elem_of_here.
  split; [exact Hin|]. apply H. exact Hin.
Defined.

(** The store refuses [bogus], and the run trains all the same and ends
    with exit code 0, without a message. *)
Lemma refused_parameter_does_not_abort :
  ~ refused_parameter_aborts (sim refusing) ["learn"; "-p"; "bogus=1"; "a.txt"]
      "crfsuite" boot.
Proof.
  unfold refused_parameter_aborts.
  destruct (main_learn (sim refusing) _ _ boot) as [[r s'] t] eqn:Hrun.
  vm_compute in Hrun. injection Hrun as <- <- <-.
  intros H. destruct (H "bogus") as (Hr & _).
  - simpl. apply list_elem_of_here.
  - by apply Hr.
Qed.

(** * Omitted data *)

(** C5, on the code.  A data set argument [-] stands for the standard
    input; but when no data set argument is given, the data reader is never
    called: the loop over the arguments has nothing to go through, and the
    standard input is not read. *)
Theorem omitted_data_reads_nothing {W} (E : externals W) (argv : list string)
    (argv0 : string) (s : machine W) :
  positional E argv s = [] ->
  let '(r, s', t) := main_learn E argv argv0 s in
  stream_of "-" = Stdin /\ ingested t = [].
Proof.
  intros Hpos.
  pose proof (main_learn_path E argv argv0 s) as Hp.
  destruct (main_learn E argv argv0 s) as [[r s'] t].
  destruct Hp as (p & l & body & (_ & _ & _ & Hp) & -> & ->).
  destruct (cleanup_projections body (reverse (created body).*2))
    as (_ & _ & _ & -> & _).
  split; [done|]. rewrite Hpos in Hp. destruct p.
  - by destruct Hp as (_ & -> & _).
  - by destruct Hp as (_ & _ & _ & _ & _ & -> & _).
  - by destruct Hp as (_ & _ & _ & _ & _ & _ & -> & _).
  - destruct Hp as (_ & _ & _ & _ & (dn & rest & Hfiles & _) & _).
    by destruct dn.
  - by destruct Hp as (_ & _ & _ & _ & -> & _).
Qed.

Lemma omitted_data_reads_nothing_witness :
  positional (sim fine) ["learn"; "-m"; "out.bin"] boot = [] /\
  let '(r, s', t) := main_learn (sim fine) ["learn"; "-m"; "out.bin"] "crfsuite" boot in
  stream_of "-" = Stdin /\ ingested t = [].
Proof.
  split; [by vm_compute|].
  apply (omitted_data_reads_nothing (sim fine) ["learn"; "-m"; "out.bin"] "crfsuite" boot).
  by vm_compute.
Defined.

(** Without a data set argument the run trains, on nothing, and never
    reads the standard input. *)
Lemma omitted_data_is_not_read_from_stdin :
  ~ omitted_data_reads_stdin (sim fine) ["learn"] "crfsuite" boot.
Proof.
  unfold omitted_data_reads_stdin.
  destruct (main_learn (sim fine) _ _ boot) as [[r s'] t] eqn:Hrun.
  vm_compute in Hrun. injection Hrun as <- <- <-.
  intros H. specialize (H eq_refl). simpl in H.
  assert (Stdin ∈ @nil FILE) as Hin by (apply H; discriminate).
  by apply elem_of_nil in Hin.
Qed.

(** * The algorithm name *)

Lemma free_length p h : length (free p h) = length h.
Proof. destruct p as [a|]; [apply length_alter | done]. Qed.


Lemma trained_on_app t1 t2 : trained_on (t1 ++ t2) = trained_on t1 ++ trained_on t2.
Proof. by_events t1. Qed.

Lemma trained_on_length t : length (trained_on t) = length (trainings t).
Proof. induction t as [|[] t IH]; simpl; congruence. Qed.

Lemma trained_on_nil t : trainings t = [] -> trained_on t = [].
Proof.
  intros H. apply nil_length_inv. by rewrite trained_on_length, H.
Qed.

Lemma create_instance_succeeds {W} (E : externals W) iid (s : machine W) :
  (crf_create_instance E iid (world s)).1 <> 0 ->
  exists r w,
    create_instance E iid s =
      ((r, Some (next_obj s)), Machine (mem s) (S (next_obj s)) w,
       [EvCreate iid (Some (next_obj s))]) /\ (r =? 0) = false.
Proof.
  unfold create_instance, bind_M, extern, emit, new_obj, unit_M.
  destruct (crf_create_instance E iid (world s)) as [r w]. simpl. intros Hr.
  apply Z.eqb_neq in Hr. rewrite Hr. eauto.
Qed.

Lemma report_and_train_trained_on {W} (E : externals W) opt c1 c2 tr lb at_ (s : machine W) :
  trained_on (report_and_train E opt c1 c2 tr lb at_ s).2 = [tr].
Proof.
  unfold report_and_train, bind_M, query, fprintf, emit, on_heap, extern. simpl.
  destruct (trainer_train E _ _ _ _ _ _ _) as [[msgs r] w]. simpl.
  match goal with |- context [foreach msgs ?b ?s1] =>
    pose proof (foreach_Forall (fun e => is_output e = true) b msgs s1) as Hm;
    destruct (foreach msgs b s1) as [[u2 s5] tm] end.
  simpl in Hm. apply silent_output in Hm as [[] ?].
  2:{ intros [f a] s0. unfold bind_M, unit_M. simpl. repeat constructor. }
  destruct (negb (r =? 0)).
  - unfold unit_M. simpl. rewrite !trained_on_app. simpl.
    by rewrite (trained_on_nil tm).
  - unfold log_time, bind_M, extern, fprintf, emit in *.
    destruct (time E (world s5)) as [ts w2']. simpl in *.
    rewrite !trained_on_app. simpl.
    by rewrite (trained_on_nil tm).
Qed.

Lemma train_on_data_sets_trained_on {W} (E : externals W) opt files tr lb at_ (s : machine W) :
  Forall (fun p => p = tr) (trained_on (train_on_data_sets E opt files tr lb at_ s).2).
Proof.
  unfold train_on_data_sets, bind_M at 1.
  pose proof (set_parameters_silent E tr opt s) as [].
  destruct (set_parameters E tr opt s) as [[u s1] tp]. simpl in *.
  unfold bind_M at 1.
  pose proof (log_time_output E (String.append "Start time of the training: %s" LF) s1) as Hl.
  destruct (log_time E _ s1) as [[u1 s2] tl]. simpl in Hl.
  apply silent_output in Hl as [[] _].
  unfold bind_M, fprintf, emit, extern. simpl.
  destruct (clock E (world s2)) as [c1 w1]. simpl.
  match goal with |- context [read_data_sets E files 0 at_ lb ?s3] =>
    pose proof (read_data_sets_spec E files 0 at_ lb s3) as Hr;
    destruct (read_data_sets E files 0 at_ lb s3) as [[opened s4] tf] end.
  destruct Hr as (Htf & _).
  destruct opened; simpl.
  - destruct (clock E (world s4)) as [c2 w2]. simpl.
    match goal with |- context [report_and_train E opt c1 c2 tr lb at_ ?s5] =>
      pose proof (report_and_train_trained_on E opt c1 c2 tr lb at_ s5) as Ht;
      destruct (report_and_train E opt c1 c2 tr lb at_ s5) as [[l s6] tt] end.
    simpl in *. rewrite !trained_on_app. simpl. rewrite !trained_on_app.
    rewrite (trained_on_nil tp), (trained_on_nil tl), (trained_on_nil tf), Ht by done.
    by repeat constructor.
  - rewrite !trained_on_app. simpl. rewrite !trained_on_app.
    rewrite (trained_on_nil tp), (trained_on_nil tl), (trained_on_nil tf) by done.
    constructor.
Qed.

Lemma learn_steps_trained_on {W} (E : externals W) args argv0 command n opt (s : machine W) :
  Forall (fun p => p = Some (S (S (next_obj s))))
    (trained_on (learn_steps E args argv0 command n opt s).2).
Proof.
  unfold learn_steps.
  destruct (n <? 0); [constructor|].
  destruct (help opt =? 0); simpl.
  2:{ unfold bind_M, show_usage, fprintf, emit, unit_M. simpl. constructor. }
  unfold bind_M at 1.
  destruct (create_instance_cases E "dictionary" s) as [(r1 & w1 & Hr1 & ->) | (w1 & ->)];
    simpl.
  2:{ unfold bind_M, fprintf, emit, unit_M. simpl. constructor. }
  rewrite Hr1. unfold bind_M at 1.
  match goal with |- context [create_instance E "dictionary" ?s1] =>
    destruct (create_instance_cases E "dictionary" s1)
      as [(r2 & w2 & Hr2 & ->) | (w2 & ->)] end; simpl.
  2:{ unfold bind_M, fprintf, emit, unit_M. simpl. constructor. }
  rewrite Hr2. unfold bind_M at 1.
  match goal with |- context [create_instance E "train/crf1d/lbfgs" ?s1] =>
    destruct (create_instance_cases E "train/crf1d/lbfgs" s1)
      as [(r3 & w3 & Hr3 & ->) | (w3 & ->)] end; simpl.
  2:{ unfold bind_M, fprintf, emit, unit_M. simpl. constructor. }
  rewrite Hr3.
  match goal with |- context [train_on_data_sets E opt ?fs ?tr ?lb ?at_ ?s1] =>
    pose proof (train_on_data_sets_trained_on E opt fs tr lb at_ s1) as Ht;
    destruct (train_on_data_sets E opt fs tr lb at_ s1) as [[l s4] tt] end.
  simpl in *. exact Ht.
Qed.

(** When no creation fails, the three instances exist when the parameters
    are set. *)
Lemma learn_steps_created {W} (E : externals W) args argv0 command n opt (s : machine W) :
  (forall iid w, (crf_create_instance E iid w).1 <> 0) ->
  0 <= n -> help opt = 0 ->
  created (learn_steps E args argv0 command n opt s).2 = instances (next_obj s).
Proof.
  intros Hall Hn Hh. unfold learn_steps.
  apply Z.ltb_ge in Hn as ->. rewrite Hh. simpl.
  unfold bind_M at 1.
  destruct (create_instance_succeeds E "dictionary" s (Hall _ _)) as (r1 & w1 & -> & Hr1).
  simpl. rewrite Hr1. unfold bind_M at 1.
  match goal with |- context [create_instance E "dictionary" ?s1] =>
    destruct (create_instance_succeeds E "dictionary" s1 (Hall _ _))
      as (r2 & w2 & -> & Hr2) end.
  simpl. rewrite Hr2. unfold bind_M at 1.
  match goal with |- context [create_instance E "train/crf1d/lbfgs" ?s1] =>
    destruct (create_instance_succeeds E "train/crf1d/lbfgs" s1 (Hall _ _))
      as (r3 & w3 & -> & Hr3) end.
  simpl. rewrite Hr3.
  match goal with |- context [train_on_data_sets E opt ?fs ?tr ?lb ?at_ ?s1] =>
    pose proof (train_on_data_sets_spec E opt fs tr lb at_ s1) as Ht;
    destruct (train_on_data_sets E opt fs tr lb at_ s1) as [[l s4] tt] end.
  destruct Ht as (_ & _ & Hc & _). simpl. by rewrite Hc.
Qed.

Lemma trained_on_releases (os : list nat) : trained_on (EvRelease <$> os) = [].
Proof. induction os as [|o os IH]; [done|]. by rewrite fmap_cons. Qed.

(** C10. The kind of the trainer does not depend on the algorithm name.
    In a run that gets past the scan of the options and the help flag, the
    calls of [crf_create_instance] are, in this order, for a dictionary, a
    dictionary and [train/crf1d/lbfgs], up to and including the first that
    fails.  When no creation fails all three are made, and when the training
    operation is called it is called on the third instance, the one created
    as [train/crf1d/lbfgs].  The run is the same whatever the field
    [algorithm] points to; and the flag [-a] (or [--algorithm]) does nothing
    but free that field's string and store a copy of its argument there. *)
Theorem trainer_kind_ignores_algorithm {W} (E : externals W) (argv : list string)
    (argv0 : string) (s : machine W) :
  0 <= (parsed E argv s).1.1 ->
  help (parsed E argv s).1.2 = 0 ->
  let '(r, s', t) := main_learn E argv argv0 s in
  creations t = take (S (length (created t))) kinds /\
  created t = take (length (created t)) (instances (next_obj s)) /\
  ((forall iid w, (crf_create_instance E iid w).1 <> 0) ->
     creations t = kinds /\ created t = instances (next_obj s)) /\
  (trainings t <> [] ->
     creations t = kinds /\ created t = instances (next_obj s) /\
     trained_on t = [Some (S (S (next_obj s)))]) /\
  (exists body, t = EvDataInit :: body /\
     forall a,
       let '(n, opt, s1) := parsed E argv s in
       (let* l := learn_steps E (tl argv) argv0 (List.hd EmptyString argv) n
                    (with_algorithm a opt) in
        force_exit (with_algorithm a opt) l) s1 = (r, s', body)) /\
  (forall opt c longname arg h,
     c = "a"%char \/ (c = NUL /\ longname = "algorithm") ->
     parse_learn_options (atoi E) opt c longname arg h =
       (1, (with_algorithm (Some (length h)) opt,
            free (algorithm opt) h ++ [duplicate arg]))).
Proof.
  intros Hn Hh.
  pose proof (main_learn_path E argv argv0 s) as Hp.
  pose proof (main_learn_eq E argv argv0 s) as Heq.
  pose proof (parsed_next_obj E argv s) as Ho.
  destruct (main_learn E argv argv0 s) as [[r s'] t].
  destruct Hp as (p & l & body & (_ & Hc & _ & Hp) & -> & ->).
  destruct (cleanup_projections body (reverse (created body).*2))
    as (-> & -> & _ & _ & -> & _).
  assert (creations body = take (S (length (created body))) kinds /\
          created body = take (length (created body)) (instances (next_obj s)) /\
          (trainings body <> [] ->
             creations body = kinds /\ created body = instances (next_obj s) /\
             length (trainings body) = 1%nat))
    as (Hk & Hi & Ht).
  { rewrite Hc. destruct p as [| |k|f|r']; simpl in *.
    - lia.
    - by destruct Hp as (_ & Hh' & _).
    - destruct Hp as (_ & _ & Hk & _ & -> & _ & _ & _ & _ & -> & _).
      destruct k as [|[|[|k]]]; [done..|lia].
    - by destruct Hp as (_ & _ & _ & -> & _ & _ & _ & -> & _).
    - by destruct Hp as (_ & _ & _ & -> & _ & _ & _ & _ & path & ->). }
  destruct (parsed E argv s) as [[n opt] s1]. simpl in *.
  pose proof (learn_steps_trained_on E (tl argv) argv0 (List.hd EmptyString argv) n opt s1)
    as Hon.
  pose proof (fun Hall =>
    learn_steps_created E (tl argv) argv0 (List.hd EmptyString argv) n opt s1 Hall Hn Hh)
    as Hall.
  destruct (learn_steps E (tl argv) argv0 (List.hd EmptyString argv) n opt s1)
    as [[l2 s2] t2] eqn:Hsteps.
  rewrite force_exit_eq in Heq. injection Heq as -> -> Ht2.
  simpl in *. rewrite Ho in *.
  assert (created body = created t2 /\ trained_on body = trained_on t2) as [Hcb Htb].
  { apply (f_equal created) in Ht2 as Hc2. apply (f_equal trained_on) in Ht2 as Ht3.
    revert Hc2 Ht3. rewrite !created_app, !trained_on_app, !created_releases,
      !trained_on_releases. simpl. rewrite !app_nil_r. done. }
  split; [done|]. split; [done|]. split; [|split; [|split]].
  - intros Hok. rewrite Hk, Hcb, (Hall Hok). done.
  - intros Hne. destruct (Ht Hne) as (-> & Hb & Hlen). split; [done|]. split; [done|].
    rewrite !trained_on_app, trained_on_releases. simpl. rewrite !app_nil_r, Htb.
    rewrite <- trained_on_length, Htb in Hlen.
    destruct (trained_on t2) as [|x [|y ts]]; try done.
    by apply Forall_cons in Hon as [-> _].
  - eexists. split; [done|]. intros a.
    unfold bind_M. change (learn_steps E (tl argv) argv0 (List.hd EmptyString argv) n
                             (with_algorithm a opt) s1)
      with (learn_steps E (tl argv) argv0 (List.hd EmptyString argv) n opt s1).
    rewrite Hsteps.
    change (force_exit (with_algorithm a opt) l2 s2) with (force_exit opt l2 s2).
    by rewrite force_exit_eq, Ht2.
  - intros opt' c longname arg h [-> | [-> ->]];
      unfold with_algorithm, duplicate; rewrite <- (free_length (algorithm opt') h);
      reflexivity.
Qed.

Lemma trainer_kind_ignores_algorithm_witness :
  0 <= (parsed (sim fine) ["learn"; "-a"; "sgd"; "a.txt"] boot).1.1 /\
  help (parsed (sim fine) ["learn"; "-a"; "sgd"; "a.txt"] boot).1.2 = 0 /\
  load_str (mem (parsed (sim fine) ["learn"; "-a"; "sgd"; "a.txt"] boot).2)
    (algorithm (parsed (sim fine) ["learn"; "-a"; "sgd"; "a.txt"] boot).1.2) 0 = "sgd" /\
  let '(r, s', t) := main_learn (sim fine) ["learn"; "-a"; "sgd"; "a.txt"] "crfsuite" boot in
  creations t = ["dictionary"; "dictionary"; "train/crf1d/lbfgs"] /\
  created t = [("dictionary", 0%nat); ("dictionary", 1%nat); ("train/crf1d/lbfgs", 2%nat)] /\
  trained_on t = [Some 2%nat].
Proof.
  assert (0 <= (parsed (sim fine) ["learn"; "-a"; "sgd"; "a.txt"] boot).1.1) as Hn
    by (by vm_compute).
  assert (help (parsed (sim fine) ["learn"; "-a"; "sgd"; "a.txt"] boot).1.2 = 0) as Hh
    by (by vm_compute).
  split; [exact Hn|]. split; [exact Hh|]. split; [by vm_compute|].
  pose proof (trainer_kind_ignores_algorithm (sim fine) ["learn"; "-a"; "sgd"; "a.txt"]
                "crfsuite" boot Hn Hh) as H.
  destruct (main_learn (sim fine) ["learn"; "-a"; "sgd"; "a.txt"] "crfsuite" boot)
    as [[r s'] t] eqn:Hrun.
  destruct H as (_ & _ & _ & H & _).
  apply H. vm_compute in Hrun. injection Hrun as _ _ <-. discriminate.
Defined.

(** * The feature flag *)

Lemma c_str_terminated (cs rest : list ascii) :
  c_str (c_str cs ++ NUL :: rest) = c_str cs.
Proof.
  induction cs as [|c cs IH]; simpl; [done|].
  destruct (Ascii.eqb c NUL) eqn:Hc; simpl; [done|]. by rewrite Hc, IH.
Qed.

Lemma load_duplicate (h : heap) (src : string) :
  load_str (h ++ [duplicate src]) (Some (length h)) 0 = c_string src.
Proof.
  unfold load_str. rewrite (lookup_app_r h) by done. rewrite Nat.sub_diag. simpl.
  apply (f_equal string_of_list_ascii), c_str_terminated.
Qed.

(** C7. Handed the flag [-f] or [--feature] with the argument [TYPE], the
    handler frees the string the field [type] points to, duplicates [TYPE]
    and stores the copy in the field [model]: afterwards the output path
    reads [TYPE], while [type] still holds the pointer that was freed and
    the string [model] pointed to before is left as it was. *)
Theorem feature_flag_overwrites_model (atoi : string -> Z) (opt : learn_option_t)
    (c : ascii) (longname TYPE : string) (h : heap) :
  c = "f"%char \/ (c = NUL /\ longname = "feature") ->
  let '(used, (opt', h')) := parse_learn_options atoi opt c longname TYPE h in
  used = 1 /\
  h' = free (type opt) h ++ [duplicate TYPE] /\
  opt' = LearnOption (Some (length h)) (algorithm opt) (type opt) (holdout opt)
           (help opt) (params opt) /\
  load_str h' (model opt') 0 = c_string TYPE.
Proof.
  intros Hflag.
  assert (parse_learn_options atoi opt c longname TYPE h =
          (1, (LearnOption (Some (length (free (type opt) h))) (algorithm opt) (type opt)
                 (holdout opt) (help opt) (params opt),
               free (type opt) h ++ [duplicate TYPE]))) as ->.
  { destruct Hflag as [-> | [-> ->]]; reflexivity. }
  rewrite free_length. repeat split.
  simpl. rewrite <- (free_length (type opt) h). apply load_duplicate.
Qed.

Lemma feature_flag_overwrites_model_witness :
  let opt := (learn_option_init []).1 in
  let h := (learn_option_init []).2 in
  ("f"%char = "f"%char \/ ("f"%char = NUL /\ EmptyString = "feature")) /\
  let '(used, (opt', h')) := parse_learn_options atoi_model opt "f"%char "" "monad" h in
  used = 1 /\
  h' = free (type opt) h ++ [duplicate "monad"] /\
  opt' = LearnOption (Some (length h)) (algorithm opt) (type opt) (holdout opt)
           (help opt) (params opt) /\
  load_str h' (model opt') 0 = c_string "monad".
Proof.
  split; [by left|].
  apply (feature_flag_overwrites_model atoi_model (learn_option_init []).1 "f"%char ""
           "monad" (learn_option_init []).2).
  by left.
Defined.

(** * The strings of the option set *)

(** C6, on the code.  [learn_option_finish] frees the string of [model] and
    the stored parameters only.  On the plain command line the default
    algorithm name and feature type are never freed; with [-f] given twice
    the default feature type is freed twice, the default output path and
    the first argument of [-f] never. *)
Theorem option_strings_are_not_freed_once :
  (let '(_, s', _) := main_learn (sim fine) ["learn"] "crfsuite" boot in
   audit (mem s') = [("crfsuite.model", 1); ("lbfgs", 0); ("dyad", 0)]%nat) /\
  (let '(_, s', _) := main_learn (sim fine) ["learn"; "-f"; "a"; "-f"; "b"; "-p"; "c1=1"]
                        "crfsuite" boot in
   audit (mem s') =
     [("crfsuite.model", 0); ("lbfgs", 0); ("dyad", 2); ("a", 0); ("b", 1); ("c1", 1)]%nat).
Proof. split; by vm_compute. Qed.

(** * Raw parameters *)

Lemma name_value_without_equals s : has_equals s = false -> name_value s = (s, None).
Proof.
  induction s as [|c s IH]; simpl; [done|].
  destruct (Ascii.eqb c "="); simpl; [done|]. intros Hs. by rewrite IH.
Qed.

Lemma name_value_first_equals n v :
  has_equals n = false -> name_value (n +:+ String "=" v) = (n, Some v).
Proof.
  induction n as [|c n IH]; simpl; [done|].
  destruct (Ascii.eqb c "="); simpl; [done|]. intros Hn. by rewrite IH.
Qed.

Lemma nul_free_c_str s rest :
  nul_free s = true ->
  string_of_list_ascii (c_str (list_ascii_of_string s ++ NUL :: rest)) = s.
Proof.
  induction s as [|c s IH]; simpl; [done|].
  destruct (Ascii.eqb c NUL); simpl; [done|]. intros Hs. by rewrite IH.
Qed.

(** What [strchr] and the write of the NUL make of the block of a
    duplicated parameter. *)
Lemma split_duplicate s :
  nul_free s = true ->
  let bs := list_ascii_of_string s ++ [NUL] in
  match strchr bs "=" with
  | None =>
      name_value s = (string_of_list_ascii (c_str bs), None)
  | Some k =>
      name_value s =
        (string_of_list_ascii (c_str (<[k := NUL]> bs)),
         Some (string_of_list_ascii (c_str (drop (S k) (<[k := NUL]> bs)))))
  end.
Proof.
  induction s as [|c s IH]; [done|].
  intros [Hc Hs]%andb_true_iff. apply negb_true_iff in Hc.
  change (nul_free s = true) in Hs. specialize (IH Hs). cbn [list_ascii_of_string app strchr name_value] in *.
  destruct (Ascii.eqb c "=") eqn:Heq.
  - cbn. change (Ascii.eqb NUL NUL) with true. cbn.
    by rewrite drop_0, (nul_free_c_str s []).
  - rewrite Hc.
    destruct (strchr (list_ascii_of_string s ++ [NUL]) "=") as [k|]; cbn;
      rewrite Hc, IH; done.
Qed.

Lemma nul_free_duplicate s :
  nul_free s = true -> duplicate s = Block (list_ascii_of_string s ++ [NUL]) 0.
Proof.
  intros Hs. unfold duplicate. do 2 f_equal.
  induction s as [|c s IH]; [done|].
  apply andb_true_iff in Hs as [Hc Hs]. apply negb_true_iff in Hc.
  simpl. rewrite Hc. f_equal. by apply IH.
Qed.

Lemma store_params_spec atoi raw : forall opt h,
  store_params atoi raw opt h =
  (LearnOption (model opt) (algorithm opt) (type opt) (holdout opt) (help opt)
     (params opt ++ (Some <$> seq (length h) (length raw))),
   h ++ (duplicate <$> raw)).
Proof.
  unfold store_params.
  induction raw as [|arg raw IH]; intros opt h; simpl.
  - rewrite !app_nil_r. by destruct opt.
  - rewrite IH. simpl. rewrite length_app. simpl.
    rewrite Nat.add_1_r, <- !app_assoc. done.
Qed.

Lemma duplicates_lookup raw : forall h : heap,
  Forall2 (fun a s => (h ++ (duplicate <$> raw)) !! a = Some (duplicate s))
    (seq (length h) (length raw)) raw.
Proof.
  induction raw as [|s raw IH]; intros h; simpl; constructor.
  - rewrite (lookup_app_r h) by done. by rewrite Nat.sub_diag.
  - specialize (IH (h ++ [duplicate s])).
    rewrite length_app, Nat.add_1_r, <- app_assoc in IH. exact IH.
Qed.

Section Parameters.

Context {W : Type} (E : externals W).

Lemma set_parameter_duplicate tr a s (st : machine W) :
  nul_free s = true ->
  mem st !! a = Some (duplicate s) ->
  let '(_, st', t) := set_parameter E tr (Some a) st in
  parameters_set t = [name_value s] /\
  forall a', a' <> a -> mem st' !! a' = mem st !! a'.
Proof.
  intros Hs Ha. rewrite (nul_free_duplicate s Hs) in Ha.
  pose proof (split_duplicate s Hs) as Hsplit. simpl in Hsplit.
  unfold set_parameter, bind_M, on_heap, extern, emit, split_param.
  rewrite Ha. simpl.
  destruct (strchr (list_ascii_of_string s ++ [NUL]) "=") as [k|]; simpl.
  - unfold load_str, store_byte. rewrite list_lookup_alter_eq, Ha. simpl.
    destruct (params_set E _ _ _) as [res w]. simpl.
    rewrite drop_0, Hsplit. split; [done|].
    intros a' Hne. by rewrite list_lookup_alter_ne.
  - unfold load_str. rewrite Ha. simpl.
    destruct (params_set E _ _ _) as [res w]. simpl.
    rewrite drop_0, Hsplit. done.
Qed.

Lemma set_parameters_duplicates tr (addrs : list nat) (raw : list string) :
  forall st : machine W,
  forallb nul_free raw = true ->
  NoDup addrs ->
  Forall2 (fun a s => mem st !! a = Some (duplicate s)) addrs raw ->
  parameters_set (foreach (Some <$> addrs) (set_parameter E tr) st).2 = name_value <$> raw.
Proof.
  intros st Hraw Hnd Hall. revert st Hraw Hnd Hall.
  induction addrs as [|a addrs IH] in raw |- *; intros st Hraw Hnd Hall.
  - by apply Forall2_nil_inv_l in Hall as ->.
  - apply Forall2_cons_inv_l in Hall as (s & raw' & Ha & Hall & ->).
    simpl in Hraw. apply andb_true_iff in Hraw as [Hs Hraw].
    apply NoDup_cons in Hnd as [Hnotin Hnd].
    rewrite fmap_cons. simpl. unfold bind_M at 1.
    pose proof (set_parameter_duplicate tr a s st Hs Ha) as Hstep.
    destruct (set_parameter E tr (Some a) st) as [[u st'] t1].
    destruct Hstep as [Ht1 Hmem].
    specialize (IH raw' st' Hraw Hnd).
    destruct (foreach (Some <$> addrs) (set_parameter E tr) st') as [[u' st''] t2].
    simpl in *. rewrite parameters_set_app, Ht1.
    change (name_value <$> s :: raw') with (name_value s :: (name_value <$> raw')).
    rewrite IH; [done|].
    clear IH. induction Hall as [|a' s' addrs raw' Ha' Hall IHall]; constructor.
    + rewrite Hmem; [done|]. intros ->. apply Hnotin, list_elem_of_here.
    + apply IHall.
      * by apply andb_true_iff in Hraw as [_ ?].
      * intros Hin. apply Hnotin. by apply list_elem_of_further.
      * by apply NoDup_cons in Hnd as [_ ?].
Qed.

End Parameters.

Lemma learn_option_init_eq h0 :
  learn_option_init h0 =
  (LearnOption (Some (length h0)) (Some (S (length h0))) (Some (S (S (length h0))))
     (-1) 0 [],
   h0 ++ [duplicate "crfsuite.model"; duplicate "lbfgs"; duplicate "dyad"]).
Proof.
  unfold learn_option_init, mystrdup, malloc.
  rewrite !length_app, <- !app_assoc. simpl. by rewrite !Nat.add_1_r.
Qed.

(** C4. Let the raw parameters [raw] be stored by [-p], one after the
    other, in a fresh option set.  Then the loop of [main_learn] calls the
    store's [set] once for each of them, in their order, with the name that
    stands before the first [=] and the value that stands after it, or
    with no value (NULL) when there is no [=].  So [NAME=A=B] gives [NAME]
    and [A=B], and [NAME] gives no value, which is not the empty value
    [NAME=] gives. *)
Theorem raw_parameters_split_at_first_equals {W} (E : externals W) (raw : list string)
    (tr : ptr) (h0 : heap) (o : nat) (w : W) :
  forallb nul_free raw = true ->
  (let '(opt, h) := store_params (atoi E) raw (learn_option_init h0).1
                      (learn_option_init h0).2 in
   parameters_set (set_parameters E tr opt (Machine h o w)).2 = name_value <$> raw) /\
  name_value "NAME=A=B" = ("NAME", Some "A=B") /\
  name_value "NAME" = ("NAME", None) /\
  name_value "NAME=" = ("NAME", Some "") /\
  (forall n v, has_equals n = false -> name_value (n +:+ String "=" v) = (n, Some v)) /\
  (forall s, has_equals s = false -> name_value s = (s, None)).
Proof.
  intros Hraw. split; [|repeat split].
  - rewrite learn_option_init_eq, store_params_spec. unfold set_parameters.
    cbn [fst snd params mem app].
    apply set_parameters_duplicates; [done | apply NoDup_seq |].
    apply duplicates_lookup.
  - apply name_value_first_equals.
  - apply name_value_without_equals.
Qed.

Lemma raw_parameters_split_at_first_equals_witness :
  forallb nul_free ["NAME=A=B"; "NAME"; "NAME="] = true /\
  (let '(opt, h) := store_params atoi_model ["NAME=A=B"; "NAME"; "NAME="]
                      (learn_option_init []).1 (learn_option_init []).2 in
   parameters_set (set_parameters (sim fine) (Some 2%nat) opt (Machine h 3 0%nat)).2
   = [("NAME", Some "A=B"); ("NAME", None); ("NAME", Some "")]).
Proof.
  split; [reflexivity|].
  exact (proj1 (raw_parameters_split_at_first_equals (sim fine)
                  ["NAME=A=B"; "NAME"; "NAME="] (Some 2%nat) [] 3 0%nat eq_refl)).
Defined.

(** The same on a whole run. *)
Example parameters_in_a_run :
  let '(_, _, t) := main_learn (sim fine)
                      ["learn"; "-p"; "NAME=A=B"; "--param=NAME"; "-pNAME="; "a.txt"]
                      "crfsuite" boot in
  parameters_set t = [("NAME", Some "A=B"); ("NAME", None); ("NAME", Some "")].
Proof. by vm_compute. Qed.


(** * Exit codes and failures before the data *)

(** X1. When [option_parse] returns a negative number, the run does nothing
    between the set-up and the release of the data set: no instance is
    created and nothing at all is written, not even to the error stream; the
    exit code is 1. *)
Theorem parse_failure_is_silent {W} (E : externals W) (argv : list string)
    (argv0 : string) (s : machine W) :
  (parsed E argv s).1.1 < 0 ->
  let '(r, s', t) := main_learn E argv argv0 s in
  r = 1 /\ t = [EvDataInit; EvDataFinish] /\
  mem s' = learn_option_finish (parsed E argv s).1.2 (mem (parsed E argv s).2).
Proof.
  intros Hn. rewrite main_learn_eq.
  destruct (parsed E argv s) as [[n opt] s1]. simpl in *.
  unfold learn_steps. apply Z.ltb_lt in Hn as ->. by unfold unit_M.
Qed.

Lemma parse_failure_is_silent_witness :
  (parsed (sim fine) ["learn"; "-x"; "a.txt"] boot).1.1 < 0 /\
  let '(r, s', t) := main_learn (sim fine) ["learn"; "-x"; "a.txt"] "crfsuite" boot in
  r = 1 /\ t = [EvDataInit; EvDataFinish] /\
  mem s' = learn_option_finish (parsed (sim fine) ["learn"; "-x"; "a.txt"] boot).1.2
             (mem (parsed (sim fine) ["learn"; "-x"; "a.txt"] boot).2).
Proof.
  split; [by vm_compute|].
  apply (parse_failure_is_silent (sim fine) ["learn"; "-x"; "a.txt"] "crfsuite" boot).
  by vm_compute.
Defined.

(** X2. The exit code of a run.  It is 0 exactly when the usage was shown
    or the training operation returned 0.  Whenever something was written to
    the error stream it is 1 and the training operation was not called; and
    when the training operation was called, the exit code is what it
    returned, whatever that is. *)
Theorem exit_code_of_a_run {W} (E : externals W) (argv : list string)
    (argv0 : string) (s : machine W) :
  let '(r, s', t) := main_learn E argv argv0 s in
  (r = 0 <->
   trained t = [0] \/ (0 <= (parsed E argv s).1.1 /\ help (parsed E argv s).1.2 <> 0)) /\
  (errors t <> [] -> r = 1 /\ trainings t = []) /\
  (forall x, trained t = [x] -> r = x) /\
  (trained t = [] -> r = 0 \/ r = 1).
Proof.
  pose proof (main_learn_path E argv argv0 s) as Hp.
  destruct (main_learn E argv argv0 s) as [[r s'] t].
  destruct Hp as (p & l & body & (_ & _ & _ & Hp) & -> & ->).
  destruct (cleanup_projections body (reverse (created body).*2))
    as (_ & _ & _ & _ & -> & -> & -> & _).
  destruct p.
  - destruct Hp as (Hn & -> & ->). simpl.
    intuition (simplify_eq; try lia; auto).
  - destruct Hp as (Hn & Hh & -> & _ & _ & _ & _ & -> & -> & ->).
    intuition (simplify_eq; try lia; auto).
  - destruct Hp as (Hn & Hh & _ & -> & _ & _ & _ & _ & -> & -> & ->).
    intuition (simplify_eq; try lia; auto).
  - destruct Hp as (Hn & Hh & -> & _ & _ & _ & -> & -> & ->).
    intuition (simplify_eq; try lia; auto).
  - destruct Hp as (Hn & Hh & -> & _ & _ & _ & -> & -> & _).
    intuition (simplify_eq; try lia; auto).
Qed.

Lemma exit_code_of_a_run_witness :
  let '(r, s', t) := main_learn (sim missing_b) ["learn"; "b.txt"] "crfsuite" boot in
  errors t <> [] /\ r = 1 /\ trainings t = [].
Proof.
  pose proof (exit_code_of_a_run (sim missing_b) ["learn"; "b.txt"] "crfsuite" boot) as H.
  destruct (main_learn (sim missing_b) _ _ boot) as [[r s'] t] eqn:Hrun.
  vm_compute in Hrun. injection Hrun as <- <- <-.
  destruct H as (_ & H & _).
  assert (errors [EvFprintf Stderr (fst (open_error "b.txt")) [PStr "b.txt"]] <> [])
    as He by discriminate.
  split; [exact He | exact (H He)].
Defined.

Lemma released_cleanup body (os : list nat) :
  released (EvDataInit :: body ++ (EvRelease <$> os) ++ [EvDataFinish])
  = released body ++ os.
Proof.
  simpl. autorewrite with trace. rewrite released_releases. simpl.
  by rewrite app_nil_r.
Qed.

(** X3. When a call of [crf_create_instance] fails, the run ends with exit
    code 1 and one message on the error stream, which tells a dictionary
    from the trainer; no parameter is set, no data set is opened or read,
    the training operation is not called, and the instances created before
    are released, last created first. *)
Theorem creation_failure_stops_the_run {W} (E : externals W) (argv : list string)
    (argv0 : string) (s : machine W) :
  let '(r, s', t) := main_learn E argv argv0 s in
  (length (created t) < length (creations t))%nat ->
  r = 1 /\
  errors t = [creation_error (length (created t))] /\
  parameters_set t = [] /\ ingested t = [] /\ failed_opens t = [] /\
  trainings t = [] /\
  released t = reverse (created t).*2.
Proof.
  pose proof (main_learn_path E argv argv0 s) as Hp.
  destruct (main_learn E argv argv0 s) as [[r s'] t].
  destruct Hp as (p & l & body & (Hrel & Hc & _ & Hp) & -> & ->).
  rewrite released_cleanup, Hrel.
  destruct (cleanup_projections body (reverse (created body).*2))
    as (-> & -> & -> & -> & -> & _ & -> & ->).
  rewrite Hc. intros Hlt. destruct p; simpl in *.
  - destruct Hp as (_ & -> & _). simpl in Hlt. lia.
  - destruct Hp as (_ & _ & _ & Hcs & _). rewrite Hcs in Hlt. simpl in Hlt. lia.
  - destruct Hp as (_ & _ & Hk & -> & Hcs & -> & -> & -> & -> & -> & _).
    rewrite length_take. simpl.
    replace (k `min` 3)%nat with k by lia. done.
  - destruct Hp as (_ & _ & _ & Hcs & _). rewrite Hcs in Hlt. simpl in Hlt. lia.
  - destruct Hp as (_ & _ & _ & Hcs & _). rewrite Hcs in Hlt. simpl in Hlt. lia.
Qed.

Lemma creation_failure_stops_the_run_witness :
  let '(r, s', t) := main_learn (sim no_trainer) ["learn"; "-p"; "c1=1"; "a.txt"]
                       "crfsuite" boot in
  (length (created t) < length (creations t))%nat /\
  r = 1 /\
  errors t = [("ERROR: Failed to create a trainer instance." +:+ LF, [])] /\
  parameters_set t = [] /\ ingested t = [] /\ failed_opens t = [] /\
  trainings t = [] /\
  released t = [1; 0]%nat.
Proof.
  pose proof (creation_failure_stops_the_run (sim no_trainer)
                ["learn"; "-p"; "c1=1"; "a.txt"] "crfsuite" boot) as H.
  destruct (main_learn (sim no_trainer) _ _ boot) as [[r s'] t] eqn:Hrun.
  vm_compute in Hrun. injection Hrun as <- <- <-.
  assert (2 < 3)%nat as Hlt by lia.
  split; [exact Hlt | exact (H Hlt)].
Defined.

(** * The parameter store and the messages of the trainer *)

(** X4. The loop that sets the parameters fetches the parameter store anew
    for each parameter, calls [set] on it once and releases it before going
    on: its events are one such use per stored parameter and nothing else,
    whatever the option set points to and whatever the store answers. *)
Theorem parameter_store_is_released_each_time {W} (E : externals W) (tr : ptr)
    (opt : learn_option_t) (s : machine W) :
  exists cs,
    length cs = length (params opt) /\
    (set_parameters E tr opt s).2 = store_uses tr cs /\
    next_obj (set_parameters E tr opt s).1.2 = next_obj s.
Proof.
  unfold set_parameters. revert s.
  induction (params opt) as [|p ps IH]; intros s; simpl.
  - by exists [].
  - unfold bind_M.
    assert (exists c, (set_parameter E tr p s).2 = store_use tr c /\
                      next_obj (set_parameter E tr p s).1.2 = next_obj s) as (c & Hc & Ho).
    { unfold set_parameter, bind_M, on_heap, extern, emit. simpl.
      destruct (split_param p (mem s)) as [v h]. simpl.
      destruct (params_set E _ _ _) as [a w] eqn:Hset. simpl.
      by eexists (_, _, a). }
    destruct (set_parameter E tr p s) as [[u s1] t1]. simpl in Hc, Ho.
    destruct (IH s1) as (cs & Hlen & Hcs & Hos).
    destruct (foreach ps (set_parameter E tr) s1) as [[u' s2] t2]. simpl in *.
    exists (c :: cs). simpl. rewrite Hlen, Hc, Hcs. repeat split. congruence.
Qed.

Lemma foreach_forwarded {W} (messages : list (string * list parg)) (s : machine W) :
  foreach messages (fun m => let* _ := message_callback m.1 m.2 in unit_M tt) s
  = (tt, s, forwarded messages).
Proof.
  set (body := fun m : string * list parg =>
                 let* _ := @message_callback W m.1 m.2 in unit_M tt).
  assert (forall m s0, body m s0 = (tt, s0, [EvFprintf Stdout m.1 m.2; EvFflush Stdout]))
    as Hbody by done.
  clearbody body. revert s.
  induction messages as [|m ms IH]; intros s; [done|].
  simpl. unfold bind_M. by rewrite Hbody, IH.
Qed.

(** X5. The last part of the body registers the callback and then calls
    the training operation with the number of instances of the data set,
    both dictionaries, the string the option set's [model] points to and
    its holdout group.  What the trainer sends to the callback is written
    to the standard output in the order it was sent, each message followed
    by a flush.  Before and after there is only output, and after a
    training that failed there is none. *)
Theorem messages_are_forwarded_in_order {W} (E : externals W) (opt : learn_option_t)
    (clk_begin clk_current : Z) (tr lb at_ : ptr) (s : machine W) :
  let n := data_num_instances E (world s) in
  let path := load_str (mem s) (model opt) 0 in
  let '(l, s', t) := report_and_train E opt clk_begin clk_current tr lb at_ s in
  let '(messages, r, _) := trainer_train E tr n at_ lb path (holdout opt) (world s) in
  exists pre post,
    t = pre ++ [EvSetMessageCallback tr; EvTrain tr n at_ lb path (holdout opt)]
            ++ forwarded messages ++ EvTrained r :: post /\
    Forall (fun e => is_output e = true) pre /\
    Forall (fun e => is_output e = true) post /\
    (post = [] \/ r = 0) /\
    l = Locals r tr lb at_ /\ mem s' = mem s.
Proof.
  unfold report_and_train, bind_M at 1 2 3 4 5 6 7 8 9 10 11 12 13 14 15 16,
    query, fprintf, emit, on_heap, extern. simpl.
  destruct (trainer_train E _ _ _ _ _ _ _) as [[msgs r] w]. simpl.
  unfold bind_M at 1. rewrite foreach_forwarded.
  destruct (r =? 0) eqn:Hr; simpl.
  - apply Z.eqb_eq in Hr as ->.
    unfold bind_M, log_time, bind_M, extern, fprintf, emit, unit_M. simpl.
    destruct (time E w) as [ts w2]. simpl.
    eexists (_ :: _ :: _ :: _ :: _ :: _ :: [_]), [_; _].
    split; [reflexivity|].
    repeat split; try by repeat constructor.
  - unfold bind_M, unit_M. simpl.
    eexists (_ :: _ :: _ :: _ :: _ :: _ :: [_]), [].
    split; [reflexivity|].
    repeat split; try by repeat constructor.
Qed.

(** * The stages of a run *)

Lemma set_parameter_frame {W} (E : externals W) tr name (s : machine W) (a : nat) :
  Some a <> name -> mem (set_parameter E tr name s).1.2 !! a = mem s !! a.
Proof.
  intros Hne. unfold set_parameter, bind_M, on_heap, extern, emit, split_param. simpl.
  destruct name as [b|]; simpl.
  - destruct (mem s !! b) as [blk|] eqn:Hb; simpl.
    + destruct (strchr (bytes blk) "=") as [k|]; simpl.
      * destruct (params_set E _ _ _) as [res w]. simpl.
        unfold store_byte. apply list_lookup_alter_ne. congruence.
      * by destruct (params_set E _ _ _) as [res w].
    + by destruct (params_set E _ _ _) as [res w].
  - by destruct (params_set E _ _ _) as [res w].
Qed.

Lemma set_parameters_frame {W} (E : externals W) tr opt (s : machine W) (a : nat) :
  Some a ∉ params opt -> mem (set_parameters E tr opt s).1.2 !! a = mem s !! a.
Proof.
  unfold set_parameters. revert s.
  induction (params opt) as [|p ps IH]; intros s Hnotin; simpl; [done|].
  apply not_elem_of_cons in Hnotin as [Hne Hnotin].
  unfold bind_M.
  pose proof (set_parameter_frame E tr p s a Hne) as Hp.
  destruct (set_parameter E tr p s) as [[u s1] t1].
  specialize (IH s1 Hnotin).
  destruct (foreach ps (set_parameter E tr) s1) as [[u' s2] t2].
  simpl in *. congruence.
Qed.

Lemma log_time_mem {W} (E : externals W) format (s : machine W) :
  mem (log_time E format s).1.2 = mem s.
Proof.
  unfold log_time, bind_M, extern, fprintf, emit.
  by destruct (time E (world s)) as [ts w].
Qed.

Lemma read_data_sets_stage {W} (E : externals W) files : forall k a b (s : machine W),
  let '(_, s', t) := read_data_sets E files k a b s in
  mem s' = mem s /\
  Forall (fun e => is_ingest_event e = true) t /\
  closed t = (ingested t).*1 /\
  opened t = not_stdin (ingested t).*1.
Proof.
  induction files as [|f files IH]; intros k a b s; simpl.
  - by repeat split.
  - unfold bind_M at 1.
    destruct (open_data_set_cases E f s) as [(w & ->) | (w & ->)].
    + unfold bind_M, fprintf, emit, extern. simpl.
      destruct (read_data E (stream_of f) a b k w) as [res w']. simpl.
      specialize (IH (k + 1) a b (Machine (mem s) (next_obj s) w')).
      destruct (read_data_sets E files (k + 1) a b _) as [[opened' s'] t].
      destruct IH as (Hm & Hall & Hc & Ho).
      split; [done|]. unfold stream_of in *.
      destruct (String.eqb f "-") eqn:Hf; simpl.
      * rewrite Hc, Ho. repeat split; try done. by repeat constructor.
      * rewrite Hc, Ho. repeat split; try done. by repeat constructor.
    + unfold bind_M, fprintf, emit, unit_M. simpl. repeat split.
      by repeat constructor.
Qed.

Lemma closed_app t1 t2 : closed (t1 ++ t2) = closed t1 ++ closed t2.
Proof. by_events t1. Qed.

Lemma opened_app t1 t2 : opened (t1 ++ t2) = opened t1 ++ opened t2.
Proof. by_events t1. Qed.

(** Events that are neither of the files nor of the data reader. *)
Lemma no_streams t :
  Forall (fun e => match e with
                   | EvFopen _ _ | EvReadData _ _ _ _ _ | EvFclose _ => False
                   | _ => True
                   end) t ->
  closed t = [] /\ opened t = [] /\ ingested t = [].
Proof.
  induction 1 as [|e t He _ (? & ? & ?)]; [done|].
  by destruct e.
Qed.

Lemma output_no_streams t :
  Forall (fun e => is_output e = true) t ->
  closed t = [] /\ opened t = [] /\ ingested t = [].
Proof.
  intros H. apply no_streams. eapply Forall_impl; [exact H|].
  by intros [].
Qed.

Lemma report_and_train_stage {W} (E : externals W) opt c1 c2 tr lb at_ (s : machine W) :
  let '(_, _, t) := report_and_train E opt c1 c2 tr lb at_ s in
  Forall (fun e => is_training_event e = true) t /\
  trainings t = [(load_str (mem s) (model opt) 0, holdout opt)].
Proof.
  unfold report_and_train, bind_M at 1 2 3 4 5 6 7 8 9 10 11 12 13 14 15 16,
    query, fprintf, emit, on_heap, extern. simpl.
  destruct (trainer_train E _ _ _ _ _ _ _) as [[msgs r] w]. simpl.
  unfold bind_M at 1. rewrite foreach_forwarded.
  assert (Forall (fun e => is_training_event e = true) (forwarded msgs)
          /\ trainings (forwarded msgs) = []) as [Hf Ht].
  { induction msgs as [|m ms [? ?]]; simpl; [done|]. by repeat constructor. }
  destruct (r =? 0); simpl.
  - unfold bind_M, log_time, bind_M, extern, fprintf, emit, unit_M. simpl.
    destruct (time E w) as [ts w2]. simpl. split.
    + repeat (apply Forall_cons; split; [done|]).
      apply Forall_app. split; [done|]. by repeat constructor.
    + autorewrite with trace. by rewrite Ht.
  - unfold bind_M, unit_M. simpl. split.
    + repeat (apply Forall_cons; split; [done|]).
      apply Forall_app. split; [done|]. by repeat constructor.
    + autorewrite with trace. by rewrite Ht.
Qed.

Lemma train_on_data_sets_staged {W} (E : externals W) opt files tr lb at_ (s : machine W) :
  let '(_, _, t) := train_on_data_sets E opt files tr lb at_ s in
  staged opt s ([] ++ t).
Proof.
  unfold train_on_data_sets, bind_M at 1.
  pose proof (set_parameter_events E tr) as Hpe.
  pose proof (foreach_Forall (fun e => is_param_event e = true)
                (set_parameter E tr) (params opt) s Hpe) as Hp.
  pose proof (set_parameters_frame E tr opt s) as Hframe.
  unfold set_parameters in *.
  destruct (foreach (params opt) (set_parameter E tr) s) as [[u s1] tp]. simpl in Hp, Hframe.
  unfold bind_M at 1.
  pose proof (log_time_output E (String.append "Start time of the training: %s" LF) s1) as Hl.
  pose proof (log_time_mem E (String.append "Start time of the training: %s" LF) s1) as Hlm.
  destruct (log_time E _ s1) as [[u1 s2] tl]. simpl in Hl, Hlm.
  unfold bind_M, fprintf, emit, extern. simpl.
  destruct (clock E (world s2)) as [c1 w1]. simpl.
  match goal with |- context [read_data_sets E files 0 at_ lb ?s3] =>
    pose proof (read_data_sets_stage E files 0 at_ lb s3) as Hr;
    destruct (read_data_sets E files 0 at_ lb s3) as [[ok s4] tf] end.
  destruct Hr as (Hm & Hall & Hc & Ho). simpl in Hm.
  destruct (output_no_streams tl Hl) as (Hcl & Hol & Hil).
  assert (Forall (fun e => is_ingest_event e = true)
            (tl ++ EvFprintf Stdout ("Reading the data set(s)" +:+ LF) [] :: tf)) as Hingest.
  { apply Forall_app. split.
    - eapply Forall_impl; [exact Hl|]. by intros [[]| | | | | | | | | | | | | |].
    - by constructor. }
  assert (closed (tl ++ EvFprintf Stdout ("Reading the data set(s)" +:+ LF) [] :: tf)
          = (ingested (tl ++ EvFprintf Stdout ("Reading the data set(s)" +:+ LF) [] :: tf)).*1
          /\ opened (tl ++ EvFprintf Stdout ("Reading the data set(s)" +:+ LF) [] :: tf)
          = not_stdin
              (ingested (tl ++ EvFprintf Stdout ("Reading the data set(s)" +:+ LF) [] :: tf)).*1)
    as [Hc' Ho'].
  { rewrite closed_app, opened_app, ingested_app, Hcl, Hol, Hil. simpl. done. }
  destruct ok; simpl.
  - destruct (clock E (world s4)) as [c2 w2]. simpl.
    match goal with |- context [report_and_train E opt c1 c2 tr lb at_ ?s5] =>
      pose proof (report_and_train_stage E opt c1 c2 tr lb at_ s5) as Ht;
      destruct (report_and_train E opt c1 c2 tr lb at_ s5) as [[l s6] tt] end.
    destruct Ht as [Htt Htr]. simpl in Htr.
    exists [], tp, (tl ++ EvFprintf Stdout ("Reading the data set(s)" +:+ LF) [] :: tf), tt.
    split; [by rewrite <- !app_assoc|]. repeat split; try done.
    right. exists (mem s1). split; [by rewrite Htr, Hm, Hlm|]. exact Hframe.
  - exists [], tp, (tl ++ EvFprintf Stdout ("Reading the data set(s)" +:+ LF) [] :: tf), [].
    split; [by rewrite <- !app_assoc, !app_nil_r|]. repeat split; try done.
    by left.
Qed.

Lemma staged_after {W} opt (s s' : machine W) pre t :
  Forall (fun e => is_setup_event e = true) pre ->
  mem s' = mem s ->
  staged opt s' t -> staged opt s (pre ++ t).
Proof.
  intros Hpre Hmem (tc & tp & tf & tt & -> & Hc & Hp & Hf & Ht & Hcl & Hop & Htr).
  exists (pre ++ tc), tp, tf, tt. rewrite <- app_assoc. rewrite <- Hmem.
  repeat split; try done. by apply Forall_app.
Qed.

Lemma staged_setup {W} opt (s : machine W) t :
  Forall (fun e => is_setup_event e = true) t -> staged opt s t.
Proof.
  intros Ht. exists t, [], [], []. rewrite !app_nil_r. repeat split; try done.
  by left.
Qed.

(** The body of every run goes through the stages in their order. *)
Lemma learn_steps_staged {W} (E : externals W) args argv0 command n opt (s : machine W) :
  staged opt s (learn_steps E args argv0 command n opt s).2.
Proof.
  unfold learn_steps.
  destruct (n <? 0); [by apply staged_setup|].
  destruct (help opt =? 0); simpl.
  2:{ apply staged_setup. unfold show_usage, bind_M, fprintf, emit, unit_M. simpl.
      by repeat constructor. }
  unfold bind_M at 1.
  destruct (create_instance_cases E "dictionary" s) as [(r1 & w1 & Hr1 & ->) | (w1 & ->)]; simpl.
  2:{ apply staged_setup. unfold bind_M, fprintf, emit, unit_M. simpl.
      by repeat constructor. }
  rewrite Hr1. unfold bind_M at 1.
  match goal with |- context [create_instance E "dictionary" ?s1] =>
    destruct (create_instance_cases E "dictionary" s1) as [(r2 & w2 & Hr2 & ->) | (w2 & ->)] end;
    simpl.
  2:{ apply staged_setup. unfold bind_M, fprintf, emit, unit_M. simpl.
      by repeat constructor. }
  rewrite Hr2. unfold bind_M at 1.
  match goal with |- context [create_instance E "train/crf1d/lbfgs" ?s1] =>
    destruct (create_instance_cases E "train/crf1d/lbfgs" s1)
      as [(r3 & w3 & Hr3 & ->) | (w3 & ->)] end;
    simpl.
  2:{ apply staged_setup. unfold bind_M, fprintf, emit, unit_M. simpl.
      by repeat constructor. }
  rewrite Hr3.
  match goal with |- context [train_on_data_sets E opt ?fs ?tr ?lb ?a ?s1] =>
    pose proof (train_on_data_sets_staged E opt fs tr lb a s1) as Ht;
    destruct (train_on_data_sets E opt fs tr lb a s1) as [[l s'] t] end.
  simpl in *.
  change (staged opt s ([EvCreate "dictionary" (Some (next_obj s))] ++
                        [EvCreate "dictionary" (Some (S (next_obj s)))] ++
                        [EvCreate "train/crf1d/lbfgs" (Some (S (S (next_obj s))))] ++ t)).
  rewrite !app_assoc. eapply staged_after; [by repeat constructor | | exact Ht]. done.
Qed.

(** The whole run: the body, staged, between the set-up of the data set
    and the cleanup. *)
Lemma main_learn_staged {W} (E : externals W) argv argv0 (s : machine W) :
  let '(_, _, t) := main_learn E argv argv0 s in
  exists body os,
    t = EvDataInit :: body ++ (EvRelease <$> os) ++ [EvDataFinish] /\
    staged (parsed E argv s).1.2 (parsed E argv s).2 body.
Proof.
  rewrite main_learn_eq.
  destruct (parsed E argv s) as [[n opt] s1]. simpl.
  pose proof (learn_steps_staged E (tl argv) argv0 (List.hd EmptyString argv) n opt s1) as Hs.
  destruct (learn_steps E _ _ _ n opt s1) as [[l s2] t2].
  rewrite force_exit_eq. simpl in *. eauto.
Qed.

Lemma releases_no_streams (os : list nat) :
  closed (EvRelease <$> os) = [] /\ opened (EvRelease <$> os) = [] /\
  ingested (EvRelease <$> os) = [] /\ trainings (EvRelease <$> os) = [].
Proof. induction os as [|o os IH]; [done|]. by rewrite fmap_cons. Qed.

(** X6. The events of a run come in stages, in this order: the calls
    that create the instances (with the usage or an error message), the
    uses of the parameter store, the opening, reading and closing of the data
    sets, the training with its messages, the releases of the instances, the
    release of the data set.  So no parameter is set once a data set was
    opened, no data set is touched once the training was called, and nothing
    is released before the training has returned. *)
Theorem stages_of_a_run {W} (E : externals W) (argv : list string) (argv0 : string)
    (s : machine W) :
  let '(r, s', t) := main_learn E argv argv0 s in
  exists tc tp tf tt,
    t = EvDataInit :: tc ++ tp ++ tf ++ tt ++ (EvRelease <$> released t) ++ [EvDataFinish] /\
    Forall (fun e => is_setup_event e = true) tc /\
    Forall (fun e => is_param_event e = true) tp /\
    Forall (fun e => is_ingest_event e = true) tf /\
    Forall (fun e => is_training_event e = true) tt.
Proof.
  pose proof (main_learn_staged E argv argv0 s) as Hs.
  destruct (main_learn E argv argv0 s) as [[r s'] t].
  destruct Hs as (body & os & -> & tc & tp & tf & tt & -> & Hc & Hpa & Hf & Ht & _).
  assert (released (tc ++ tp ++ tf ++ tt) = []) as Hnone.
  { autorewrite with trace.
    assert (forall u (P : event -> bool),
              (forall e, P e = true -> match e with EvRelease _ => False | _ => True end) ->
              Forall (fun e => P e = true) u -> released u = []) as Hno.
    { intros u P HP. induction 1 as [|e u He _ IH]; [done|].
      apply HP in He. by destruct e. }
    rewrite (Hno tc is_setup_event), (Hno tp is_param_event),
      (Hno tf is_ingest_event), (Hno tt is_training_event); try done.
    all: by intros [[]| | | | | | | | | | | | | |]. }
  exists tc, tp, tf, tt. split; [|done].
  rewrite released_cleanup, Hnone. simpl. by rewrite <- !app_assoc.
Qed.

Lemma tagged_streams files : forall k, (tagged k files).*1 = stream_of <$> files.
Proof. induction files as [|f files IH]; intros k; [done|]. simpl. by rewrite IH. Qed.

(** X7. Every call of the data reader is followed by one call of [fclose]
    on the same stream: the streams closed are the streams read, in the same
    order and as often.  The streams read are those of the data set
    arguments from the first on, all of them when the training is reached;
    the standard input is closed like any other, after each argument [-], so
    that it is closed twice and read again after it was closed when [-] is
    given twice.  Every file that was opened was handed to the reader.  This
    holds on every exit path. *)
Theorem every_stream_read_is_closed {W} (E : externals W) (argv : list string)
    (argv0 : string) (s : machine W) :
  let '(r, s', t) := main_learn E argv argv0 s in
  closed t = (ingested t).*1 /\ opened t = not_stdin (ingested t).*1 /\
  (ingested t).*1 `prefix_of` (stream_of <$> positional E argv s) /\
  (trainings t <> [] -> closed t = stream_of <$> positional E argv s).
Proof.
  pose proof (main_learn_staged E argv argv0 s) as Hs.
  pose proof (main_learn_path E argv argv0 s) as Hp.
  destruct (main_learn E argv argv0 s) as [[r s'] t].
  assert (closed t = (ingested t).*1 /\ opened t = not_stdin (ingested t).*1) as [Hcl Hop].
  { destruct Hs as (body & os & -> & tc & tp & tf & tt & -> & Hc & Hpa & Hf & Ht & Hcl & Hop & _).
    assert (forall u (P : event -> bool),
              (forall e, P e = true ->
                 match e with
                 | EvFopen _ _ | EvReadData _ _ _ _ _ | EvFclose _ => False
                 | _ => True
                 end) ->
              Forall (fun e => P e = true) u ->
              closed u = [] /\ opened u = [] /\ ingested u = []) as Hno.
    { intros u P HP Hu. apply no_streams. eapply Forall_impl; [exact Hu|]. exact HP. }
    destruct (Hno tc is_setup_event) as (Hc1 & Hc2 & Hc3); [by intros []|done|].
    destruct (Hno tp is_param_event) as (Hp1 & Hp2 & Hp3); [by intros []|done|].
    destruct (Hno tt is_training_event) as (Ht1 & Ht2 & Ht3);
      [by intros [[]| | | | | | | | | | | | | |]|done|].
    destruct (releases_no_streams os) as (Hr1 & Hr2 & Hr3 & _).
    simpl. rewrite !closed_app, !opened_app, !ingested_app.
    rewrite Hc1, Hc2, Hc3, Hp1, Hp2, Hp3, Ht1, Ht2, Ht3, Hr1, Hr2, Hr3.
    simpl. by rewrite !app_nil_r. }
  split; [done|]. split; [done|]. rewrite Hcl. clear Hs Hcl Hop.
  destruct Hp as (p & l & body & (_ & _ & _ & Hp) & _ & ->).
  destruct (cleanup_projections body (reverse (created body).*2))
    as (_ & _ & _ & -> & -> & _).
  destruct p as [| |k|f|r']; simpl in Hp.
  - destruct Hp as (_ & -> & _). split; [apply prefix_nil|done].
  - destruct Hp as (_ & _ & _ & _ & _ & -> & _ & _ & -> & _). split; [apply prefix_nil|done].
  - destruct Hp as (_ & _ & _ & _ & _ & _ & -> & _ & _ & -> & _). split; [apply prefix_nil|done].
  - destruct Hp as (_ & _ & _ & _ & (done & rest & -> & ->) & _ & _ & -> & _).
    split; [|done]. rewrite tagged_streams, fmap_app. by apply prefix_app_r.
  - destruct Hp as (_ & _ & _ & _ & -> & _). by rewrite tagged_streams.
Qed.

Lemma every_stream_read_is_closed_witness :
  let '(r, s', t) := main_learn (sim fine) ["learn"; "-"; "-"] "crfsuite" boot in
  trainings t <> [] /\
  closed t = [Stdin; Stdin] /\ ingested t = [(Stdin, 0); (Stdin, 1)] /\ opened t = [] /\
  exists t1 t2 t3,
    t = t1 ++ [EvReadData Stdin (Some 0%nat) (Some 1%nat) 0 (ReadDone 1); EvFclose Stdin]
           ++ t2
           ++ [EvReadData Stdin (Some 0%nat) (Some 1%nat) 1 (ReadDone 1); EvFclose Stdin]
           ++ t3.
Proof.
  pose proof (every_stream_read_is_closed (sim fine) ["learn"; "-"; "-"] "crfsuite" boot)
    as H.
  destruct (main_learn (sim fine) ["learn"; "-"; "-"] "crfsuite" boot) as [[r s'] t] eqn:Hrun.
  destruct H as (_ & _ & _ & H).
  assert (trainings t <> []) as Ht.
  { vm_compute in Hrun. injection Hrun as _ _ <-. discriminate. }
  split; [exact Ht|]. split; [exact (H Ht)|].
  vm_compute in Hrun. injection Hrun as _ _ <-.
  split; [reflexivity|]. split; [reflexivity|].
  by eexists [_; _; _; _; _; _; _; _], [_], _.
Defined.



(** * The option set after the flags *)

Lemma handler_by_kind atoi opt c longname arg h :
  parse_learn_options atoi opt c longname arg h =
  match kind_of c longname with
  | Some FModel =>
      (1, (LearnOption (Some (length h)) (algorithm opt) (type opt) (holdout opt)
             (help opt) (params opt), free (model opt) h ++ [duplicate arg]))
  | Some FTest =>
      (1, (LearnOption (model opt) (algorithm opt) (type opt)
             (int_wrap (atoi arg - 1)) (help opt) (params opt), h))
  | Some FHelp =>
      (0, (LearnOption (model opt) (algorithm opt) (type opt) (holdout opt) 1
             (params opt), h))
  | Some FAlgorithm =>
      (1, (LearnOption (model opt) (Some (length h)) (type opt) (holdout opt)
             (help opt) (params opt), free (algorithm opt) h ++ [duplicate arg]))
  | Some FFeature =>
      (1, (LearnOption (Some (length h)) (algorithm opt) (type opt) (holdout opt)
             (help opt) (params opt), free (type opt) h ++ [duplicate arg]))
  | Some FParam =>
      (1, (LearnOption (model opt) (algorithm opt) (type opt) (holdout opt)
             (help opt) (params opt ++ [Some (length h)]), h ++ [duplicate arg]))
  | None => (-1, (opt, h))
  end.
Proof.
  unfold parse_learn_options, kind_of, mystrdup, malloc.
  repeat match goal with |- context [if ?b then _ else _] => destruct b end;
    rewrite ?free_length; reflexivity.
Qed.

Lemma lookup_free_ne (h : heap) (q : ptr) (i : nat) :
  q <> Some i -> free q h !! i = h !! i.
Proof.
  destruct q as [a|]; [|done]. intros Hne.
  apply list_lookup_alter_ne. congruence.
Qed.

Lemma lookup_free_eq (h : heap) (a : nat) (b : block) :
  h !! a = Some b -> free (Some a) h !! a = Some (Block (bytes b) (S (frees b))).
Proof. intros Ha. simpl. by rewrite list_lookup_alter_eq, Ha. Qed.

Lemma lookup_grown_old (h : heap) (q : ptr) (bs : list block) (i : nat) (b : block) :
  h !! i = Some b -> q <> Some i -> (free q h ++ bs) !! i = Some b.
Proof.
  intros Hi Hne. apply lookup_app_l_Some. by rewrite lookup_free_ne.
Qed.

Lemma lookup_grown_new (h : heap) (q : ptr) (b : block) :
  (free q h ++ [b]) !! length h = Some b.
Proof.
  rewrite <- (free_length q h). rewrite (lookup_app_r (free q h)) by done.
  by rewrite Nat.sub_diag.
Qed.

Lemma lookup_grown_inv (h : heap) (q : ptr) (bnew : block) (i : nat) (b : block) :
  (free q h ++ [bnew]) !! i = Some b ->
  (i = length h /\ b = bnew)
  \/ (q = Some i /\ exists b0, h !! i = Some b0 /\ b = Block (bytes b0) (S (frees b0)))
  \/ (q <> Some i /\ h !! i = Some b).
Proof.
  intros Hi. apply lookup_app_Some in Hi as [Hi | [Hlen Hi]].
  - destruct (decide (q = Some i)) as [-> | Hne].
    + right; left. split; [done|].
      simpl in Hi. rewrite list_lookup_alter_eq in Hi.
      destruct (h !! i) as [b0|]; [|done]. simpl in Hi. injection Hi as <-. eauto.
    + right; right. by rewrite lookup_free_ne in Hi.
  - left. rewrite free_length in *.
    destruct (i - length h)%nat as [|k] eqn:Hk; simpl in Hi; [|done].
    split; [lia | congruence].
Qed.

Lemma take_grown (h0 h : heap) (q : ptr) (bs : list block) :
  take (length h0) h = h0 ->
  (forall i, q = Some i -> length h0 <= i)%nat ->
  take (length h0) (free q h ++ bs) = h0.
Proof.
  intros Ht Hq.
  assert (length h0 <= length h)%nat as Hlen.
  { rewrite <- Ht at 1. rewrite length_take. lia. }
  rewrite take_app_le by (rewrite free_length; lia).
  destruct q as [a|]; [|done]. simpl.
  rewrite take_alter_ge by (by apply Hq). done.
Qed.

Lemma params_grown (h : heap) (q : ptr) (bs : list block) ps (raws : list string) :
  Forall2 (fun p s => h !! p = Some (duplicate s)) ps raws ->
  q ∉ (Some <$> ps) ->
  Forall2 (fun p s => (free q h ++ bs) !! p = Some (duplicate s)) ps raws.
Proof.
  induction 1 as [|p s ps raws Hp _ IH]; intros Hq; constructor.
  - apply lookup_grown_old; [done|]. intros ->. apply Hq. rewrite fmap_cons.
    apply list_elem_of_here.
  - apply IH. intros Hin. apply Hq. rewrite fmap_cons. by apply list_elem_of_further.
Qed.

Lemma represents_init (h0 : heap) : represents h0 defaults (learn_option_init h0).
Proof.
  rewrite learn_option_init_eq.
  exists (length h0), (S (length h0)), []. simpl.
  repeat split; try done.
  - repeat (apply NoDup_cons; split); try apply NoDup_nil_2;
      rewrite ?not_elem_of_cons; repeat split; try lia; apply not_elem_of_nil.
  - repeat constructor; lia.
  - rewrite (lookup_app_r h0) by done. by rewrite Nat.sub_diag.
  - rewrite (lookup_app_r h0) by lia. by replace (S (length h0) - length h0)%nat with 1%nat by lia.
  - rewrite (lookup_app_r h0) by lia.
    by replace (S (S (length h0)) - length h0)%nat with 2%nat by lia.
  - apply take_app_length.
  - intros i b Hi Hle Hne.
    rewrite (lookup_app_r h0) in Hi by done.
    destruct (i - length h0)%nat as [|[|[|k]]] eqn:Hk; simpl in Hi; simplify_eq; simpl; lia.
Qed.

Lemma fresh_address (h : heap) (l : list nat) :
  Forall (fun i => is_Some (h !! i)) l -> length h ∉ l.
Proof.
  intros Hall Hin. rewrite Forall_forall in Hall.
  apply Hall, lookup_lt_is_Some in Hin. lia.
Qed.

Lemma params_in_heap (h : heap) ps (raws : list string) :
  Forall2 (fun p s => h !! p = Some (duplicate s)) ps raws ->
  Forall (fun i => is_Some (h !! i)) ps.
Proof. induction 1; constructor; eauto. Qed.

Lemma represents_step atoi h0 a st c :
  represents h0 a st -> represents h0 (account atoi a c) (handle atoi st c).
Proof.
  destruct st as [opt h]. destruct c as [[c longname] arg].
  intros (m & al & ps & Hm & Hal & Hty & Hps & Hho & Hhe & Hnd & Hge & Lm & Lal & Lty
          & Lps & Htake & Hfr).
  simpl in *. unfold handle, account. simpl. rewrite handler_by_kind.
  assert (length h0 <= length h)%nat as Hlen.
  { rewrite <- Htake at 1. rewrite length_take. lia. }
  pose proof (params_in_heap h ps _ Lps) as Hin.
  assert (length h ∉ m :: al :: S (S (length h0)) :: ps) as Hfresh.
  { apply fresh_address. repeat (apply Forall_cons; split); eauto. }
  destruct (proj1 (NoDup_cons _ _) Hnd) as [Hm_notin Hnd1].
  destruct (proj1 (NoDup_cons _ _) Hnd1) as [Hal_notin Hnd2].
  destruct (proj1 (NoDup_cons _ _) Hnd2) as [Hty_notin Hnd3].
  destruct (proj1 (Forall_cons _ _ _) Hge) as [Hgm Hge'].
  destruct (proj1 (Forall_cons _ _ _) Hge') as [Hga Hgp].
  destruct (proj1 (not_elem_of_cons _ _ _) Hm_notin) as [Hmal Hm2].
  destruct (proj1 (not_elem_of_cons _ _ _) Hm2) as [Hmty Hmps].
  destruct (proj1 (not_elem_of_cons _ _ _) Hal_notin) as [Halty Halps].
  destruct (proj1 (not_elem_of_cons _ _ _) Hfresh) as [Hfm Hf2].
  destruct (proj1 (not_elem_of_cons _ _ _) Hf2) as [Hfal Hf3].
  destruct (proj1 (not_elem_of_cons _ _ _) Hf3) as [Hfty Hfps].
  assert (forall x, x ∉ ps -> Some x ∉ (Some <$> ps)) as Hsome.
  { intros x Hx [y [[= ->] Hy]]%list_elem_of_fmap. done. }
  destruct (kind_of c longname) as [[]|]; simpl.
  - (* the output path is replaced *)
    rewrite Hm. exists (length h), al, ps. simpl.
    split; [done|]. repeat split; try done.
    + repeat (apply NoDup_cons; split); try done;
        rewrite ?not_elem_of_cons; repeat split; try done; congruence.
    + repeat (apply Forall_cons; split); try done.
    + apply (lookup_grown_new h (Some m)).
    + apply (lookup_grown_old h (Some m)); [done | congruence].
    + apply (lookup_grown_old h (Some m)); [done | congruence].
    + apply (params_grown h (Some m)); [done | by apply Hsome].
    + apply (take_grown h0 h (Some m)); [done|]. by intros i [= <-].
    + intros i b Hi Hle Hne.
      apply (lookup_grown_inv h (Some m)) in Hi as [[-> ->] | [([= <-] & b0 & Hb0 & ->) | [_ Hi]]].
      * simpl. lia.
      * rewrite Lm in Hb0. injection Hb0 as <-. simpl. lia.
      * by eapply Hfr.
  - (* the holdout group *)
    exists m, al, ps. simpl. by repeat split.
  - (* help *)
    exists m, al, ps. simpl. by repeat split.
  - (* the algorithm name is replaced *)
    rewrite Hal. exists m, (length h), ps. simpl.
    split; [done|]. repeat split; try done.
    + repeat (apply NoDup_cons; split); try done;
        rewrite ?not_elem_of_cons; repeat split; try done; congruence.
    + repeat (apply Forall_cons; split); try done.
    + apply (lookup_grown_old h (Some al)); [done | congruence].
    + apply (lookup_grown_new h (Some al)).
    + apply (lookup_grown_old h (Some al)); [done | congruence].
    + apply (params_grown h (Some al)); [done | by apply Hsome].
    + apply (take_grown h0 h (Some al)); [done|]. by intros i [= <-].
    + intros i b Hi Hle Hne.
      apply (lookup_grown_inv h (Some al)) in Hi as [[-> ->] | [([= <-] & b0 & Hb0 & ->) | [_ Hi]]].
      * simpl. lia.
      * rewrite Lal in Hb0. injection Hb0 as <-. simpl. lia.
      * by eapply Hfr.
  - (* the feature flag: the output path is replaced, the type is freed *)
    rewrite Hty. exists (length h), al, ps. simpl.
    split; [done|]. repeat split; try done.
    + repeat (apply NoDup_cons; split); try done;
        rewrite ?not_elem_of_cons; repeat split; try done; congruence.
    + repeat (apply Forall_cons; split); try done.
    + apply (lookup_grown_new h (Some (S (S (length h0))))).
    + apply (lookup_grown_old h (Some (S (S (length h0))))); [done | congruence].
    + apply lookup_app_l_Some. exact (lookup_free_eq h _ _ Lty).
    + apply (params_grown h (Some (S (S (length h0))))); [done | by apply Hsome].
    + apply (take_grown h0 h (Some (S (S (length h0))))); [done|]. intros i [= <-]. lia.
    + intros i b Hi Hle Hne.
      apply (lookup_grown_inv h (Some (S (S (length h0))))) in Hi as [[-> ->] | [([= <-] & _) | [_ Hi]]].
      * simpl. lia.
      * done.
      * by eapply Hfr.
  - (* a parameter is added *)
    rewrite Hps. exists m, al, (ps ++ [length h]). simpl.
    split; [done|]. repeat split; try done.
    + by rewrite fmap_app.
    + assert (NoDup (length h :: m :: al :: S (S (length h0)) :: ps)) as Hnd'.
      { apply NoDup_cons. split; [|done].
        rewrite !not_elem_of_cons. repeat split; done. }
      eapply (NoDup_Permutation_proper _ _); [|exact Hnd'].
      rewrite app_comm_cons. rewrite (app_comm_cons _ _ al).
      rewrite (app_comm_cons _ _ m). by rewrite <- Permutation_cons_append.
    + repeat (apply Forall_cons; split); try done.
      apply Forall_app. split; [done|]. by repeat constructor.
    + by apply (lookup_grown_old h None).
    + by apply (lookup_grown_old h None).
    + by apply (lookup_grown_old h None).
    + apply Forall2_app.
      * apply (params_grown h None); [done|].
        by intros [y [? _]]%list_elem_of_fmap.
      * constructor; [|constructor]. apply (lookup_grown_new h None).
    + by apply (take_grown h0 h None).
    + intros i b Hi Hle Hne.
      apply (lookup_grown_inv h None) in Hi as [[-> ->] | [([=] & _) | [_ Hi]]].
      * simpl. lia.
      * by eapply Hfr.
  - (* a flag that is refused *)
    exists m, al, ps. simpl. by repeat split.
Qed.

Lemma represents_all atoi h0 calls :
  represents h0 (account_all atoi calls) (handle_all atoi calls (learn_option_init h0)).
Proof.
  unfold account_all, handle_all.
  generalize (represents_init h0).
  generalize defaults (learn_option_init h0).
  induction calls as [|c calls IH]; intros a st Hrep; simpl; [done|].
  by apply IH, represents_step.
Qed.

Lemma load_duplicated (h : heap) (a : nat) (src : string) (n : nat) :
  h !! a = Some (Block (bytes (duplicate src)) n) ->
  load_str h (Some a) 0 = c_string src.
Proof.
  intros Ha. unfold load_str. rewrite Ha. simpl. rewrite drop_0.
  apply (f_equal string_of_list_ascii), c_str_terminated.
Qed.

Lemma int_wrap_range z : - 2 ^ 31 <= int_wrap z < 2 ^ 31.
Proof. unfold int_wrap. pose proof (Z.mod_pos_bound (z + 2 ^ 31) (2 ^ 32)). lia. Qed.

Lemma int_wrap_id z : - 2 ^ 31 <= z < 2 ^ 31 -> int_wrap z = z.
Proof. intros Hz. unfold int_wrap. rewrite Z.mod_small; lia. Qed.

Lemma holdout_group_range atoi calls : forall a,
  - 2 ^ 31 <= holdout_group a < 2 ^ 31 ->
  - 2 ^ 31 <= holdout_group (foldl (account atoi) a calls) < 2 ^ 31.
Proof.
  induction calls as [|c calls IH]; intros a Ha; [done|].
  simpl. apply IH. unfold account.
  destruct (kind_of c.1.1 c.1.2) as [[]|]; simpl; try done.
  apply int_wrap_range.
Qed.

(** X9. The option set after a sequence of flags with at most one feature
    flag, from a fresh one.  The output path is the argument of the last
    [-m] or [-f] flag, or [crfsuite.model] when there was none; the
    algorithm name that of the last [-a], or [lbfgs]; the holdout group is
    [atoi] of the argument of the last [-t] less one, as an [int], or -1;
    help is set once [-h] was given, and stays; the parameters are the
    arguments of the [-p] flags in their order; and the feature type reads
    [dyad] as long as no feature flag was given (after one, the field still
    points to the freed string, and is not read).  Flags that are refused
    change nothing. *)
Theorem flags_set_the_option_set (atoi : string -> Z) (h0 : heap) (calls : list call) :
  (feature_flags (account_all atoi calls) <= 1)%nat ->
  let '(opt, h) := handle_all atoi calls (learn_option_init h0) in
  let a := account_all atoi calls in
  load_str h (model opt) 0 = c_string (output_path a) /\
  load_str h (algorithm opt) 0 = c_string (algorithm_name a) /\
  (feature_flags a = 0%nat -> load_str h (type opt) 0 = "dyad") /\
  holdout opt = holdout_group a /\
  - 2 ^ 31 <= holdout opt < 2 ^ 31 /\
  help opt = help_requested a /\
  (fun p => load_str h p 0) <$> params opt = c_string <$> raw_parameters a.
Proof.
  intros _.
  pose proof (represents_all atoi h0 calls) as Hrep.
  pose proof (holdout_group_range atoi calls defaults) as Hrange.
  fold (account_all atoi calls) in Hrange.
  destruct (handle_all atoi calls (learn_option_init h0)) as [opt h].
  destruct Hrep as (m & al & ps & Hm & Hal & Hty & Hps & Hho & Hhe & _ & _ & Lm & Lal & Lty
                    & Lps & _).
  simpl in *. rewrite Hm, Hal, Hty, Hps.
  split; [by apply (load_duplicated h m _ 0)|].
  split; [by apply (load_duplicated h al _ 0)|].
  split; [intros _;
          by apply (load_duplicated h _ "dyad" (feature_flags (account_all atoi calls)))|].
  split; [done|]. split; [rewrite Hho; apply Hrange; simpl; lia|]. split; [done|].
  rewrite <- list_fmap_compose. clear -Lps.
  induction Lps as [|p s ps raws Hp _ IH]; [done|].
  rewrite !fmap_cons, IH. f_equal. by apply (load_duplicated h p s 0).
Qed.

Lemma flags_set_the_option_set_witness :
  (feature_flags (account_all atoi_model some_flags) <= 1)%nat /\
  let '(opt, h) := handle_all atoi_model some_flags (learn_option_init []) in
  load_str h (model opt) 0 = "b.bin" /\
  load_str h (algorithm opt) 0 = "sgd" /\
  holdout opt = 2147483647 /\
  help opt = 0 /\
  (fun p => load_str h p 0) <$> params opt = ["c1=0.5"; "x=y=z"; "quiet"].
Proof.
  assert (feature_flags (account_all atoi_model some_flags) <= 1)%nat as Hf
    by (vm_compute; lia).
  split; [exact Hf|].
  pose proof (flags_set_the_option_set atoi_model [] some_flags Hf) as H.
  destruct (handle_all atoi_model some_flags (learn_option_init [])) as [opt h].
  destruct H as (Hm & Ha & _ & Hh & _ & Hhe & Hp).
  split; [exact Hm|]. split; [exact Ha|]. split; [exact Hh|]. split; [exact Hhe|].
  exact Hp.
Defined.

(** X10. After a sequence of flags with at most one feature flag the
    output path, the algorithm name and the stored parameters are separate
    allocations, none of which was freed, and no allocation made since the
    option set was initialised was freed twice: what [main_learn] reads and
    writes through these pointers is valid memory, and splitting a parameter
    cannot touch the output path.  The blocks that were on the heap before
    are as they were.  (A second feature flag frees the default feature
    type a second time, and nothing of this is claimed then.) *)
Theorem option_pointers_stay_live (atoi : string -> Z) (h0 : heap) (calls : list call) :
  (feature_flags (account_all atoi calls) <= 1)%nat ->
  let '(opt, h) := handle_all atoi calls (learn_option_init h0) in
  NoDup (model opt :: algorithm opt :: params opt) /\
  Forall (fun p => freed h p = Some 0%nat) (model opt :: algorithm opt :: params opt) /\
  (model opt ∉ params opt) /\
  (forall i b, h !! i = Some b -> (length h0 <= i)%nat -> (frees b <= 1)%nat) /\
  take (length h0) h = h0.
Proof.
  intros Hone.
  pose proof (represents_all atoi h0 calls) as Hrep.
  destruct (handle_all atoi calls (learn_option_init h0)) as [opt h].
  destruct Hrep as (m & al & ps & Hm & Hal & Hty & Hps & _ & _ & Hnd & _ & Lm & Lal & Lty
                    & Lps & Htake & Hfr).
  simpl in *. rewrite Hm, Hal, Hps.
  assert (NoDup (m :: al :: ps)) as Hnd'.
  { eapply sublist_NoDup; [exact Hnd|].
    do 2 apply sublist_skip. by apply sublist_cons. }
  assert (NoDup (Some m :: Some al :: (Some <$> ps))) as Hnd''.
  { apply (NoDup_fmap_2 Some) in Hnd'. exact Hnd'. }
  split; [done|]. split; [|split; [|split; [|done]]].
  - repeat (apply Forall_cons; split).
    + simpl. by rewrite Lm.
    + simpl. by rewrite Lal.
    + clear -Lps. induction Lps as [|p s ps raws Hp _ IH]; [done|].
      rewrite fmap_cons. apply Forall_cons. split; [|done]. simpl. by rewrite Hp.
  - apply NoDup_cons in Hnd'' as [Hnotin _].
    intros Hin. apply Hnotin. by apply list_elem_of_further.
  - intros i b Hi Hle.
    destruct (decide (i = S (S (length h0)))) as [-> | Hne].
    + rewrite Lty in Hi. injection Hi as <-. done.
    + by apply (Hfr i b).
Qed.

Lemma option_pointers_stay_live_witness :
  (feature_flags (account_all atoi_model some_flags) <= 1)%nat /\
  let '(opt, h) := handle_all atoi_model some_flags (learn_option_init []) in
  model opt = Some 5%nat /\ algorithm opt = Some 7%nat /\
  params opt = [Some 4%nat; Some 6%nat; Some 8%nat] /\
  Forall (fun p => freed h p = Some 0%nat) (model opt :: algorithm opt :: params opt) /\
  (forall i b, h !! i = Some b -> (frees b <= 1)%nat).
Proof.
  assert (feature_flags (account_all atoi_model some_flags) <= 1)%nat as Hf
    by (vm_compute; lia).
  split; [exact Hf|].
  pose proof (option_pointers_stay_live atoi_model [] some_flags Hf) as H.
  destruct (handle_all atoi_model some_flags (learn_option_init [])) as [opt h] eqn:Hrun.
  destruct H as (_ & Hlive & _ & Hfr & _).
  vm_compute in Hrun. injection Hrun as <- <-.
  split; [reflexivity|]. split; [reflexivity|]. split; [reflexivity|].
  split; [exact Hlive|].
  intros i b Hi. apply (Hfr i b Hi). simpl. lia.
Defined.

Lemma lookup_free_all_ne (ps : list nat) : forall (h : heap) (i : nat),
  i ∉ ps -> foldl (fun h p => free p h) h (Some <$> ps) !! i = h !! i.
Proof.
  induction ps as [|p ps IH]; intros h i Hi; [done|].
  apply not_elem_of_cons in Hi as [Hne Hi].
  rewrite fmap_cons. simpl foldl. rewrite IH by done.
  apply (lookup_free_ne h (Some p)). congruence.
Qed.

Lemma lookup_free_all_in (ps : list nat) : forall (h : heap) (i : nat) (b : block),
  NoDup ps -> i ∈ ps -> h !! i = Some b ->
  foldl (fun h p => free p h) h (Some <$> ps) !! i
  = Some (Block (bytes b) (S (frees b))).
Proof.
  induction ps as [|p ps IH]; intros h i b Hnd Hi Hb.
  - by apply elem_of_nil in Hi.
  - apply NoDup_cons in Hnd as [Hp Hnd]. rewrite fmap_cons. simpl foldl.
    apply elem_of_cons in Hi as [-> | Hi].
    + rewrite lookup_free_all_ne by done. by apply lookup_free_eq.
    + apply IH; [done | done |].
      rewrite (lookup_free_ne h (Some p)); [done|]. intros [= ->]. done.
Qed.

Lemma free_all_length (ps : list ptr) : forall h : heap,
  length (foldl (fun h p => free p h) h ps) = length h.
Proof.
  induction ps as [|p ps IH]; intros h; [done|].
  simpl. by rewrite IH, free_length.
Qed.

Lemma params_block (h : heap) ps (raws : list string) :
  Forall2 (fun p s => h !! p = Some (duplicate s)) ps raws ->
  forall p, p ∈ ps -> exists s, h !! p = Some (duplicate s).
Proof.
  induction 1 as [|p s ps raws Hp _ IH]; intros q Hq.
  - by apply elem_of_nil in Hq.
  - apply elem_of_cons in Hq as [-> | Hq]; eauto.
Qed.

Lemma take_free_all (n : nat) (ps : list nat) : forall h : heap,
  Forall (fun i => n <= i)%nat ps ->
  take n (foldl (fun h p => free p h) h (Some <$> ps)) = take n h.
Proof.
  induction ps as [|p ps IH]; intros h Hall; [done|].
  apply Forall_cons in Hall as [Hp Hall].
  rewrite fmap_cons. simpl foldl. rewrite IH by done. simpl.
  by rewrite take_alter_ge.
Qed.

(** X11. The accounts of the heap when [learn_option_finish] has run after
    a sequence of flags with at most one feature flag.  The output path in
    use and every stored parameter are freed exactly once; the algorithm name
    in use is never freed; the default feature type, the third allocation of
    [learn_option_init], is freed by the feature flag and not otherwise; and
    no allocation made since the option set was initialised is freed more
    than once.  Nothing that was on the heap before is touched. *)
Theorem teardown_after_flags (atoi : string -> Z) (h0 : heap) (calls : list call) :
  (feature_flags (account_all atoi calls) <= 1)%nat ->
  let '(opt, h) := handle_all atoi calls (learn_option_init h0) in
  let h' := learn_option_finish opt h in
  Forall (fun p => freed h' p = Some 1%nat) (model opt :: params opt) /\
  freed h' (algorithm opt) = Some 0%nat /\
  freed h' (Some (S (S (length h0)))) = Some (feature_flags (account_all atoi calls)) /\
  (forall i b, h' !! i = Some b -> (length h0 <= i)%nat -> (frees b <= 1)%nat) /\
  take (length h0) h' = h0.
Proof.
  intros Hone.
  pose proof (represents_all atoi h0 calls) as Hrep.
  destruct (handle_all atoi calls (learn_option_init h0)) as [opt h].
  destruct Hrep as (m & al & ps & Hm & Hal & Hty & Hps & _ & _ & Hnd & Hge & Lm & Lal & Lty
                    & Lps & Htake & Hfr).
  simpl in *. unfold learn_option_finish. rewrite Hm, Hal, Hps.
  destruct (proj1 (NoDup_cons _ _) Hnd) as [Hm_notin Hnd1].
  destruct (proj1 (NoDup_cons _ _) Hnd1) as [Hal_notin Hnd2].
  destruct (proj1 (NoDup_cons _ _) Hnd2) as [Hty_notin Hnd3].
  destruct (proj1 (not_elem_of_cons _ _ _) Hm_notin) as [Hmal Hm2].
  destruct (proj1 (not_elem_of_cons _ _ _) Hm2) as [Hmty Hmps].
  destruct (proj1 (not_elem_of_cons _ _ _) Hal_notin) as [Halty Halps].
  destruct (proj1 (Forall_cons _ _ _) Hge) as [Hgm Hge'].
  destruct (proj1 (Forall_cons _ _ _) Hge') as [Hga Hgp].
  set (h1 := free (Some m) h).
  assert (forall p s, p ∈ ps -> h !! p = Some (duplicate s) ->
            foldl (fun h p => free p h) h1 (Some <$> ps) !! p
            = Some (Block (bytes (duplicate s)) 1)) as Hparam.
  { intros p s Hp Hl. apply (lookup_free_all_in ps h1 p (duplicate s)); [done | done |].
    unfold h1. rewrite (lookup_free_ne h (Some m)); [done|]. intros [= ->]. done. }
  assert (foldl (fun h p => free p h) h1 (Some <$> ps) !! S (S (length h0))
          = Some (Block (bytes (duplicate "dyad")) (feature_flags (account_all atoi calls))))
    as Hdyad.
  { rewrite lookup_free_all_ne by done. unfold h1.
    rewrite (lookup_free_ne h (Some m)) by congruence. by rewrite Lty. }
  split; [|split; [|split; [|split]]].
  - apply Forall_cons. split.
    + simpl. rewrite lookup_free_all_ne by done. unfold h1.
      by rewrite (lookup_free_eq h m _ Lm).
    + apply Forall_fmap, Forall_forall. intros p Hp.
      destruct (params_block h ps _ Lps p Hp) as [s Hs].
      simpl. by rewrite (Hparam p s).
  - simpl. rewrite lookup_free_all_ne by done. unfold h1.
    rewrite (lookup_free_ne h (Some m)) by congruence. by rewrite Lal.
  - simpl. by rewrite Hdyad.
  - intros i b Hi Hle.
    destruct (decide (i = S (S (length h0)))) as [-> | Hne].
    { rewrite Hdyad in Hi. injection Hi as <-. done. }
    destruct (decide (i ∈ ps)) as [Hin | Hnotin].
    + destruct (params_block h ps _ Lps i Hin) as [s Hs].
      rewrite (Hparam i s) in Hi by done. injection Hi as <-. simpl. lia.
    + rewrite lookup_free_all_ne in Hi by done. unfold h1 in Hi.
      destruct (decide (i = m)) as [-> | Hnm].
      * rewrite (lookup_free_eq h m _ Lm) in Hi. injection Hi as <-. simpl. lia.
      * rewrite (lookup_free_ne h (Some m)) in Hi by congruence.
        by apply (Hfr i b).
  - rewrite take_free_all by done. unfold h1. simpl.
    by rewrite take_alter_ge.
Qed.

Lemma teardown_after_flags_witness :
  (feature_flags (account_all atoi_model some_flags) <= 1)%nat /\
  let '(opt, h) := handle_all atoi_model some_flags (learn_option_init []) in
  audit (learn_option_finish opt h) =
    [("crfsuite.model", 1%nat); ("lbfgs", 1%nat); ("dyad", 1%nat); ("a.bin", 0%nat);
     ("c1=0.5", 1%nat); ("b.bin", 1%nat); ("x=y=z", 1%nat); ("sgd", 0%nat);
     ("quiet", 1%nat)] /\
  (forall i b, learn_option_finish opt h !! i = Some b -> (frees b <= 1)%nat).
Proof.
  assert (feature_flags (account_all atoi_model some_flags) <= 1)%nat as Hf
    by (vm_compute; lia).
  split; [exact Hf|].
  pose proof (teardown_after_flags atoi_model [] some_flags Hf) as H.
  destruct (handle_all atoi_model some_flags (learn_option_init [])) as [opt h] eqn:Hrun.
  destruct H as (_ & _ & _ & Hfr & _).
  split.
  - vm_compute in Hrun. injection Hrun as <- <-. reflexivity.
  - intros i b Hi. apply (Hfr i b Hi). simpl. lia.
Defined.

(** * Flags that are refused *)

Lemma recognised_kind_of c longname :
  recognised c longname = bool_decide (is_Some (kind_of c longname)).
Proof.
  unfold recognised, kind_of, SHORTOPT, LONGOPT. simpl.
  destruct (Ascii.eqb c NUL) eqn:Hnul.
  - apply Ascii.eqb_eq in Hnul as ->. simpl.
    repeat match goal with |- context [String.eqb ?a ?b] => destruct (String.eqb a b) end;
      reflexivity.
  - simpl.
    repeat match goal with |- context [Ascii.eqb ?a ?b] => destruct (Ascii.eqb a b) end;
      reflexivity.
Qed.

(** X12. A flag that is none of [m t h a f p] and, as a long option, none
    of [model test help algorithm feature param] is answered with -1, and
    neither the option set nor the heap is changed; a long name counts only
    when the flag character is NUL.  Every other flag is accepted, with 0
    for help, which takes no argument, and 1 otherwise. *)
Theorem unknown_flag_is_refused (atoi : string -> Z) (opt : learn_option_t)
    (c : ascii) (longname arg : string) (h : heap) :
  let '(used, st) := parse_learn_options atoi opt c longname arg h in
  (recognised c longname = false -> used = -1 /\ st = (opt, h)) /\
  (recognised c longname = true ->
   used = (if Ascii.eqb c "h" || (Ascii.eqb c NUL && String.eqb longname "help")
           then 0 else 1)).
Proof.
  rewrite handler_by_kind, recognised_kind_of.
  unfold kind_of, SHORTOPT, LONGOPT.
  destruct (Ascii.eqb c NUL) eqn:Hnul.
  - apply Ascii.eqb_eq in Hnul as ->. simpl.
    repeat match goal with |- context [String.eqb ?a ?b] => destruct (String.eqb a b) eqn:? end;
      simpl; repeat split; try done;
      repeat match goal with H : String.eqb _ _ = true |- _ => apply String.eqb_eq in H end;
      congruence.
  - simpl. rewrite ?andb_false_r, ?orb_false_r.
    repeat match goal with |- context [Ascii.eqb ?a ?b] => destruct (Ascii.eqb a b) eqn:? end;
      simpl; repeat split; try done;
      repeat match goal with H : Ascii.eqb _ _ = true |- _ => apply Ascii.eqb_eq in H end;
      congruence.
Qed.

Lemma unknown_flag_is_refused_witness :
  recognised "z" "model" = false /\
  parse_learn_options atoi_model (learn_option_init []).1 "z"%char "model" "x"
    (learn_option_init []).2
  = (-1, learn_option_init []).
Proof.
  split; [reflexivity|].
  pose proof (unknown_flag_is_refused atoi_model (learn_option_init []).1 "z"%char
                "model" "x" (learn_option_init []).2) as H.
  destruct (parse_learn_options _ _ _ _ _ _) as [used st].
  destruct H as [H _]. destruct (H eq_refl) as [-> ->]. reflexivity.
Defined.

(** * The parameters after the flags *)

Lemma name_value_join s :
  join (name_value s) = s /\ has_equals (name_value s).1 = false.
Proof.
  induction s as [|c s [IH1 IH2]]; [done|]. simpl.
  destruct (Ascii.eqb c "=") eqn:Hc.
  - apply Ascii.eqb_eq in Hc as ->. done.
  - destruct (name_value s) as [n [v|]]; unfold join in *; simpl in *;
      rewrite Hc; subst; done.
Qed.

(** X14. The parameters through the whole of the option handling.  Let
    flags be handled from a fresh option set, at most one of them a feature
    flag, their [-p] arguments being without NUL.  Then the loop of
    [main_learn] calls [set] once for each [-p] argument, in their order and
    whatever flags stood between them, with its name and value; the name
    holds no [=], and name and value put together again with [=] are the
    argument: nothing is lost. *)
Theorem parameters_survive_other_flags {W} (E : externals W) (calls : list call)
    (tr : ptr) (h0 : heap) (o : nat) (w : W) :
  (feature_flags (account_all (atoi E) calls) <= 1)%nat ->
  forallb nul_free (raw_parameters (account_all (atoi E) calls)) = true ->
  let '(opt, h) := handle_all (atoi E) calls (learn_option_init h0) in
  let sets := parameters_set (set_parameters E tr opt (Machine h o w)).2 in
  sets = name_value <$> raw_parameters (account_all (atoi E) calls) /\
  join <$> sets = raw_parameters (account_all (atoi E) calls) /\
  Forall (fun nv => has_equals nv.1 = false) sets.
Proof.
  intros _ Hraw.
  pose proof (represents_all (atoi E) h0 calls) as Hrep.
  destruct (handle_all (atoi E) calls (learn_option_init h0)) as [opt h].
  destruct Hrep as (m & al & ps & _ & _ & _ & Hps & _ & _ & Hnd & _ & _ & _ & _ & Lps & _).
  simpl in *. unfold set_parameters. rewrite Hps.
  assert (NoDup ps) as Hnd'.
  { eapply sublist_NoDup; [exact Hnd|]. by do 3 apply sublist_cons. }
  rewrite (set_parameters_duplicates E tr ps _ (Machine h o w) Hraw Hnd' Lps).
  split; [done|]. split.
  - rewrite <- list_fmap_compose. clear.
    induction (raw_parameters _) as [|s raws IH]; [done|].
    rewrite fmap_cons, IH. f_equal. apply name_value_join.
  - apply Forall_fmap, Forall_forall. intros s _. apply name_value_join.
Qed.

Lemma parameters_survive_other_flags_witness :
  (feature_flags (account_all atoi_model some_flags) <= 1)%nat /\
  forallb nul_free (raw_parameters (account_all atoi_model some_flags)) = true /\
  let '(opt, h) := handle_all atoi_model some_flags (learn_option_init []) in
  let sets := parameters_set (set_parameters (sim fine) (Some 2%nat) opt
                                (Machine h 3 0%nat)).2 in
  sets = [("c1", Some "0.5"); ("x", Some "y=z"); ("quiet", None)] /\
  join <$> sets = ["c1=0.5"; "x=y=z"; "quiet"] /\
  Forall (fun nv => has_equals nv.1 = false) sets.
Proof.
  assert (feature_flags (account_all atoi_model some_flags) <= 1)%nat as Hf
    by (vm_compute; lia).
  split; [exact Hf|]. split; [reflexivity|].
  exact (parameters_survive_other_flags (sim fine) some_flags (Some 2%nat) [] 3 0%nat
           Hf eq_refl).
Defined.

(** * The loop over the data sets *)

(** X15. The loop over the data sets takes them one after the other: each
    is opened (the standard input is not), announced on the standard
    output with its number counted from 1, read with its group counted from
    0, and closed before the next is opened.  The loop stops at the first
    file that cannot be opened, with the message naming it; the data sets
    listed after it are not opened at all.  The heap and the instances are
    not touched. *)
Theorem data_sets_one_after_the_other {W} (E : externals W) (files : list string)
    (k : Z) (a b : ptr) (s : machine W) :
  let '(ok, s', t) := read_data_sets E files k a b s in
  mem s' = mem s /\ next_obj s' = next_obj s /\
  exists done rest results,
    files = done ++ rest /\ length results = length done /\
    t = listing a b k (zip done results)
        ++ match rest with
           | [] => []
           | f :: _ => [EvFopen f false; EvFprintf Stderr (open_error f).1 (open_error f).2]
           end /\
    ok = match rest with [] => true | _ => false end.
Proof.
  revert k s. induction files as [|f files IH]; intros k s; simpl.
  - repeat split. by exists [], [], [].
  - unfold bind_M at 1.
    destruct (open_data_set_cases E f s) as [(w & ->) | (w & ->)].
    + unfold bind_M, fprintf, emit, extern. simpl.
      destruct (read_data E (stream_of f) a b k w) as [res w']. simpl.
      specialize (IH (k + 1) (Machine (mem s) (next_obj s) w')).
      destruct (read_data_sets E files (k + 1) a b _) as [[ok s'] t].
      destruct IH as (Hm & Ho & dn & rest & results & -> & Hlen & -> & ->).
      repeat split; try done.
      exists (f :: dn), rest, (res :: results). simpl. rewrite Hlen.
      repeat split. rewrite <- !app_assoc. done.
    + unfold bind_M, fprintf, emit, unit_M. simpl. repeat split.
      by exists [], (f :: files), [].
Qed.
